(** * The local page cache of wiktionary-cli: [services/db.py]

    [Database] wraps one sqlite3 connection opened in autocommit mode
    ([isolation_level = None]) on a file with two tables,

      Pages    (id INTEGER PRIMARY KEY, name TEXT UNIQUE, content TEXT,
                datetime DATETIME)
      Searches (id INTEGER PRIMARY KEY, text TEXT, datetime DATETIME)

    and every method issues one or two SQL statements against it.  The
    development has three layers:

    - the SQL fragment the methods use, as a small syntax ([statement])
      with an interpreter ([execute]) over the two tables;
    - an exception/state monad that also records which statements ran;
    - the methods of [Database], written statement for statement as in the
      Python source. *)

From Stdlib Require Import ZArith List String Ascii Bool Lia.
From Stdlib Require Import Permutation Sorting.Sorted.
Import ListNotations.

Local Open Scope string_scope.
Local Open Scope list_scope.
Local Open Scope Z_scope.

(** ** Values and rows *)

(** What a cell of the two tables holds and what a [?] placeholder is bound
    to.  The DATETIME cells are the text [YYYY-MM-DD HH:MM:SS] that SQLite's
    [DATETIME('now', 'localtime')] produces; [VDatetime t] stands for that
    text, [t] counting the whole seconds of the local wall clock. *)
Inductive value : Type :=
| VInt (n : Z)
| VStr (s : string)
| VDatetime (t : Z).

(** A result row, as Python sees it. *)
Definition tuple : Type := list value.

Definition value_eqb (a b : value) : bool :=
  match a, b with
  | VInt x, VInt y => (x =? y)%Z
  | VStr x, VStr y => String.eqb x y
  | VDatetime x, VDatetime y => (x =? y)%Z
  | _, _ => false
  end.

(** [CREATE TABLE Pages (id INTEGER PRIMARY KEY, name TEXT UNIQUE,
    content TEXT, datetime DATETIME)] *)
Record PageRow : Type := mkPage {
  page_id : Z;
  page_name : string;
  page_content : string;
  page_datetime : Z
}.

(** [CREATE TABLE Searches (id INTEGER PRIMARY KEY, text TEXT,
    datetime DATETIME)] *)
Record SearchRow : Type := mkSearch {
  search_id : Z;
  search_text : string;
  search_datetime : Z
}.

(** The store: the rows of both tables, in storage order. *)
Record database : Type := mkDb {
  Pages : list PageRow;
  Searches : list SearchRow
}.

Definition empty_db : database := mkDb [] [].

(** ** Identifiers *)

(** SQL identifiers (table names, aliases, column names) match without
    regard to ASCII case: [p.name] names the column of the table aliased
    [P]. *)
Definition ascii_lower (c : ascii) : ascii :=
  let n := nat_of_ascii c in
  if (Nat.leb 65 n && Nat.leb n 90)%bool then ascii_of_nat (n + 32) else c.

Fixpoint lower (s : string) : string :=
  match s with
  | EmptyString => EmptyString
  | String c rest => String (ascii_lower c) (lower rest)
  end.

Definition ident_eqb (a b : string) : bool := String.eqb (lower a) (lower b).

(** ** The SQL fragment *)

Inductive direction : Type := ASC | DESC.

(** The two value expressions of the source's statements. *)
Inductive expr : Type :=
| Qmark                      (* ? *)
| DATETIME_now_localtime.    (* DATETIME('now', 'localtime') *)

(** A qualified column, [alias.column]. *)
Definition colref : Type := (string * string)%type.

Inductive statement : Type :=
| SELECT (cols : list colref) (from alias : string)
         (where_eq : option colref)                 (* WHERE c = ? *)
         (order_by : option (colref * direction))
         (limit : option expr)
| INSERT_INTO (table : string) (cols : list string) (values : list expr)
| UPDATE (table : string) (set : list (string * expr))
         (where_eq : string)                        (* WHERE c = ? *)
| DELETE_FROM (table : string).

(** The exceptions the methods and the sqlite3 module raise here. *)
Inductive exception : Type :=
| ValueError
| TypeError
| OverflowError
| IntegrityError
| OperationalError
| ProgrammingError.

(** ** Ordering *)

(** SQLite's order on values: integers among themselves and before text.
    The statements of the source order by the INTEGER column id only; the
    cases on text are there to make the order total. *)
Definition value_leb (a b : value) : bool :=
  match a, b with
  | VInt x, VInt y => (x <=? y)%Z
  | VInt _, _ => true
  | _, VInt _ => false
  | VStr x, VStr y => String.leb x y
  | VDatetime x, VDatetime y => (x <=? y)%Z
  | VStr _, VDatetime _ => true
  | VDatetime _, VStr _ => false
  end.

Section Sort.
Context {R : Type} (leb : R -> R -> bool).

Fixpoint insert_row (x : R) (l : list R) : list R :=
  match l with
  | [] => [x]
  | y :: ys => if leb x y then x :: l else y :: insert_row x ys
  end.

Fixpoint sort_rows (l : list R) : list R :=
  match l with
  | [] => []
  | x :: xs => insert_row x (sort_rows xs)
  end.
End Sort.

Definition order_leb {R : Type} (key : R -> value) (d : direction)
  : R -> R -> bool :=
  match d with
  | ASC => fun a b => value_leb (key a) (key b)
  | DESC => fun a b => value_leb (key b) (key a)
  end.

(** ** Tables *)

Inductive sqltype : Type := INTEGER | TEXT | DATETIME.

Definition type_of (v : value) : sqltype :=
  match v with
  | VInt _ => INTEGER
  | VStr _ => TEXT
  | VDatetime _ => DATETIME
  end.

Definition sqltype_eqb (a b : sqltype) : bool :=
  match a, b with
  | INTEGER, INTEGER | TEXT, TEXT | DATETIME, DATETIME => true
  | _, _ => false
  end.

Fixpoint assoc_get (c : string) (a : list (string * value)) : option value :=
  match a with
  | [] => None
  | (k, v) :: rest => if ident_eqb k c then Some v else assoc_get c rest
  end.

(** What the interpreter needs to know of a table: how a column is read and
    written, how a fresh row is built from the cells an INSERT names, and
    which rows a UNIQUE constraint forbids next to each other. *)
Record table_ops (R : Type) : Type := mkOps {
  t_column : string -> option (sqltype * (R -> value));
  t_set : string -> value -> R -> option R;
  t_make : Z -> list (string * value) -> option R;
  t_rowid : R -> Z;
  t_conflict : R -> R -> bool
}.
Arguments t_column {R}.
Arguments t_set {R}.
Arguments t_make {R}.
Arguments t_rowid {R}.
Arguments t_conflict {R}.

Definition Pages_ops : table_ops PageRow := {|
  t_column c :=
    if ident_eqb c "id" then Some (INTEGER, fun r => VInt (page_id r))
    else if ident_eqb c "name" then Some (TEXT, fun r => VStr (page_name r))
    else if ident_eqb c "content"
      then Some (TEXT, fun r => VStr (page_content r))
    else if ident_eqb c "datetime"
      then Some (DATETIME, fun r => VDatetime (page_datetime r))
    else None;
  (* the fragment rewrites only the unconstrained columns *)
  t_set c v r :=
    match v with
    | VStr s =>
        if ident_eqb c "content"
        then Some (mkPage (page_id r) (page_name r) s (page_datetime r))
        else None
    | VDatetime t =>
        if ident_eqb c "datetime"
        then Some (mkPage (page_id r) (page_name r) (page_content r) t)
        else None
    | VInt _ => None
    end;
  (* the id is never given: SQLite assigns it *)
  t_make id a :=
    match assoc_get "id" a, assoc_get "name" a,
          assoc_get "content" a, assoc_get "datetime" a with
    | None, Some (VStr n), Some (VStr c), Some (VDatetime t) =>
        Some (mkPage id n c t)
    | _, _, _, _ => None
    end;
  t_rowid := page_id;
  (* name TEXT UNIQUE *)
  t_conflict r r' := String.eqb (page_name r') (page_name r)
|}.

Definition Searches_ops : table_ops SearchRow := {|
  t_column c :=
    if ident_eqb c "id" then Some (INTEGER, fun r => VInt (search_id r))
    else if ident_eqb c "text" then Some (TEXT, fun r => VStr (search_text r))
    else if ident_eqb c "datetime"
      then Some (DATETIME, fun r => VDatetime (search_datetime r))
    else None;
  t_set c v r :=
    match v with
    | VStr s =>
        if ident_eqb c "text"
        then Some (mkSearch (search_id r) s (search_datetime r))
        else None
    | VDatetime t =>
        if ident_eqb c "datetime"
        then Some (mkSearch (search_id r) (search_text r) t)
        else None
    | VInt _ => None
    end;
  t_make id a :=
    match assoc_get "id" a, assoc_get "text" a, assoc_get "datetime" a with
    | None, Some (VStr s), Some (VDatetime t) => Some (mkSearch id s t)
    | _, _, _ => None
    end;
  t_rowid := search_id;
  (* no constraint besides the key *)
  t_conflict _ _ := false
|}.

(** ** Binding parameters *)

(** The sqlite3 module converts a Python int to a 64-bit SQLite INTEGER and
    raises OverflowError when it does not fit; a wrong number of bindings is
    a ProgrammingError. *)
Definition int64_ok (v : value) : bool :=
  match v with
  | VInt n => ((- 2 ^ 63 <=? n) && (n <? 2 ^ 63))%Z
  | _ => true
  end.

Definition bind_parameters (placeholders : nat) (params : list value)
  : option exception :=
  if negb (Nat.eqb (List.length params) placeholders) then Some ProgrammingError
  else if forallb int64_ok params then None
  else Some OverflowError.

Definition count_qmarks (es : list expr) : nat :=
  List.length
    (filter (fun e => match e with Qmark => true | _ => false end) es).

(** The values of a list of expressions, and the parameters left over.
    [now] is the local wall clock in microseconds; DATETIME keeps its whole
    seconds. *)
Fixpoint eval_exprs (now : Z) (es : list expr) (params : list value)
  : option (list value * list value) :=
  match es with
  | [] => Some ([], params)
  | Qmark :: es' =>
      match params with
      | [] => None
      | p :: ps =>
          match eval_exprs now es' ps with
          | Some (vs, rest) => Some (p :: vs, rest)
          | None => None
          end
      end
  | DATETIME_now_localtime :: es' =>
      match eval_exprs now es' params with
      | Some (vs, rest) => Some (VDatetime (now / 1000000) :: vs, rest)
      | None => None
      end
  end.

(** ** The interpreter, over one table *)

Definition is_some {A : Type} (o : option A) : bool :=
  match o with Some _ => true | None => false end.

Section Interpreter.
Context {R : Type} (T : table_ops R).

(** [alias.column]: the qualifier must be the alias the FROM clause gave
    the table, and the column one of the table's. *)
Definition resolve (alias : string) (c : colref)
  : option (sqltype * (R -> value)) :=
  if ident_eqb (fst c) alias then t_column T (snd c) else None.

Fixpoint resolve_all (alias : string) (cs : list colref)
  : option (list (R -> value)) :=
  match cs with
  | [] => Some []
  | c :: cs' =>
      match resolve alias c, resolve_all alias cs' with
      | Some (_, f), Some fs => Some (f :: fs)
      | _, _ => None
      end
  end.

Definition resolve_opt (alias : string) (c : option colref)
  : option (option (sqltype * (R -> value))) :=
  match c with
  | None => Some None
  | Some c =>
      match resolve alias c with
      | Some x => Some (Some x)
      | None => None
      end
  end.

Definition project (fs : list (R -> value)) (r : R) : tuple :=
  map (fun f => f r) fs.

(** WHERE c = ?, taking the first parameter. *)
Definition where_rows (w : option (sqltype * (R -> value)))
           (params : list value) (rows : list R)
  : option (list R * list value) :=
  match w with
  | None => Some (rows, params)
  | Some (ty, f) =>
      match params with
      | v :: rest =>
          if sqltype_eqb (type_of v) ty
          then Some (filter (fun r => value_eqb (f r) v) rows, rest)
          else None
      | [] => None
      end
  end.

Definition order_rows (o : option (sqltype * (R -> value))) (d : direction)
           (rows : list R) : list R :=
  match o with
  | None => rows
  | Some (_, key) => sort_rows (order_leb key d) rows
  end.

(** LIMIT ?, taking the last parameter; a negative bound is no bound. *)
Definition limit_rows (limit : option expr) (params : list value)
           (rows : list R) : option (list R) :=
  match limit, params with
  | None, [] => Some rows
  | Some Qmark, [VInt n] =>
      Some (if (n <? 0)%Z then rows else firstn (Z.to_nat n) rows)
  | _, _ => None
  end.

(** A statement is compiled first (an unknown column is an
    OperationalError), then its parameters are bound, then it runs.  A
    parameter of another type than its column is outside the fragment and
    answered with ProgrammingError. *)
Definition select (alias : string) (cols : list colref)
           (where_eq : option colref)
           (order_by : option (colref * direction)) (limit : option expr)
           (params : list value) (rows : list R) : exception + list tuple :=
  match resolve_all alias cols, resolve_opt alias where_eq,
        resolve_opt alias (option_map fst order_by) with
  | Some fs, Some w, Some o =>
      match bind_parameters
              ((if is_some w then 1 else 0) + (if is_some limit then 1 else 0))
              params with
      | Some e => inl e
      | None =>
          match where_rows w params rows with
          | None => inl ProgrammingError
          | Some (rows1, rest) =>
              let d := match order_by with Some (_, d) => d | None => ASC end in
              match limit_rows limit rest (order_rows o d rows1) with
              | None => inl ProgrammingError
              | Some rows2 => inr (map (project fs) rows2)
              end
          end
      end
  | _, _, _ => inl OperationalError
  end.

(** An INTEGER PRIMARY KEY that the INSERT leaves out gets one more than
    the largest key in the table, 1 in an empty table.  (At the key
    2^63 - 1 SQLite picks unused keys at random; keys are only ever
    assigned here, counting up from 1, so that is out of reach.) *)
Definition next_rowid (rows : list R) : Z :=
  match map (t_rowid T) rows with
  | [] => 1
  | i :: ids => fold_left Z.max ids i + 1
  end.

Definition insert (now : Z) (cols : list string) (values : list expr)
           (params : list value) (rows : list R) : exception + list R :=
  if negb (forallb (fun c => is_some (t_column T c)) cols)
     || negb (Nat.eqb (List.length cols) (List.length values))
  then inl OperationalError
  else
    match bind_parameters (count_qmarks values) params with
    | Some e => inl e
    | None =>
        match eval_exprs now values params with
        | Some (vs, []) =>
            match t_make T (next_rowid rows) (combine cols vs) with
            | None => inl ProgrammingError
            | Some r =>
                if existsb (t_conflict T r) rows then inl IntegrityError
                else inr (rows ++ [r])%list
            end
        | _ => inl ProgrammingError
        end
    end.

Fixpoint apply_sets (a : list (string * value)) (r : R) : option R :=
  match a with
  | [] => Some r
  | (c, v) :: rest =>
      match t_set T c v r with
      | Some r' => apply_sets rest r'
      | None => None
      end
  end.

Fixpoint update_rows (a : list (string * value)) (hit : R -> bool)
         (rows : list R) : option (list R) :=
  match rows with
  | [] => Some []
  | r :: rest =>
      match (if hit r then apply_sets a r else Some r),
            update_rows a hit rest with
      | Some r', Some rest' => Some (r' :: rest')
      | _, _ => None
      end
  end.

(** SET placeholders come before the WHERE placeholder. *)
Definition update (now : Z) (set : list (string * expr)) (where_eq : string)
           (params : list value) (rows : list R) : exception + list R :=
  match t_column T where_eq with
  | None => inl OperationalError
  | Some (ty, f) =>
      if negb (forallb (fun ce => is_some (t_column T (fst ce))) set)
      then inl OperationalError
      else
        match bind_parameters (count_qmarks (map snd set) + 1) params with
        | Some e => inl e
        | None =>
            match eval_exprs now (map snd set) params with
            | Some (vs, [v]) =>
                if sqltype_eqb (type_of v) ty
                then
                  match update_rows (combine (map fst set) vs)
                                    (fun r => value_eqb (f r) v) rows with
                  | Some rows' => inr rows'
                  | None => inl ProgrammingError
                  end
                else inl ProgrammingError
            | _ => inl ProgrammingError
            end
        end
  end.
End Interpreter.

(** ** Statements against the store *)

Definition cursor : Type := list tuple.

(** One statement, run at wall-clock time [now] (in microseconds).  A
    statement that raises leaves the store as it was. *)
Definition run_statement (now : Z) (stmt : statement) (params : list value)
           (db : database) : exception + (cursor * database) :=
  match stmt with
  | SELECT cols from alias where_eq order_by limit =>
      if ident_eqb from "Pages" then
        match select Pages_ops alias cols where_eq order_by limit params
                     (Pages db) with
        | inl e => inl e
        | inr rows => inr (rows, db)
        end
      else if ident_eqb from "Searches" then
        match select Searches_ops alias cols where_eq order_by limit params
                     (Searches db) with
        | inl e => inl e
        | inr rows => inr (rows, db)
        end
      else inl OperationalError
  | INSERT_INTO table cols values =>
      if ident_eqb table "Pages" then
        match insert Pages_ops now cols values params (Pages db) with
        | inl e => inl e
        | inr rows => inr ([], mkDb rows (Searches db))
        end
      else if ident_eqb table "Searches" then
        match insert Searches_ops now cols values params (Searches db) with
        | inl e => inl e
        | inr rows => inr ([], mkDb (Pages db) rows)
        end
      else inl OperationalError
  | UPDATE table set where_eq =>
      if ident_eqb table "Pages" then
        match update Pages_ops now set where_eq params (Pages db) with
        | inl e => inl e
        | inr rows => inr ([], mkDb rows (Searches db))
        end
      else if ident_eqb table "Searches" then
        match update Searches_ops now set where_eq params (Searches db) with
        | inl e => inl e
        | inr rows => inr ([], mkDb (Pages db) rows)
        end
      else inl OperationalError
  | DELETE_FROM table =>
      if ident_eqb table "Pages" then
        match params with
        | [] => inr ([], mkDb [] (Searches db))
        | _ => inl ProgrammingError
        end
      else if ident_eqb table "Searches" then
        match params with
        | [] => inr ([], mkDb (Pages db) [])
        | _ => inl ProgrammingError
        end
      else inl OperationalError
  end.

(** ** The monad of the methods *)

(** A method call ends by returning or by raising, leaves a store behind, and
    has run some statements against it, first to last. *)
Record outcome (A : Type) : Type := mkOutcome {
  returned : exception + A;
  store : database;
  executed : list statement
}.
Arguments mkOutcome {A}.
Arguments returned {A}.
Arguments store {A}.
Arguments executed {A}.

(** A computation reads the local wall clock (microseconds; one reading per
    call) and the store it starts from. *)
Definition M (A : Type) : Type := Z -> database -> outcome A.

Definition ret {A : Type} (a : A) : M A :=
  fun _ db => mkOutcome (inr a) db [].

Definition raise {A : Type} (e : exception) : M A :=
  fun _ db => mkOutcome (inl e) db [].

Definition bind {A B : Type} (m : M A) (k : A -> M B) : M B :=
  fun now db =>
    let o := m now db in
    match returned o with
    | inl e => mkOutcome (inl e) (store o) (executed o)
    | inr a =>
        let o' := k a now (store o) in
        mkOutcome (returned o') (store o') (executed o ++ executed o')%list
    end.

Notation "x <- m ;; k" := (bind m (fun x => k))
  (at level 61, m at next level, right associativity).
Notation "m ;;; k" := (bind m (fun _ => k))
  (at level 61, right associativity).

(** [try: m  except e: h] *)
Definition try_except {A : Type} (m : M A) (catches : exception -> bool)
           (h : M A) : M A :=
  fun now db =>
    let o := m now db in
    match returned o with
    | inl e =>
        if catches e then
          let o' := h now (store o) in
          mkOutcome (returned o') (store o') (executed o ++ executed o')%list
        else o
    | inr _ => o
    end.

(** [self.__db.execute(sql, params)] *)
Definition execute (stmt : statement) (params : list value) : M cursor :=
  fun now db =>
    match run_statement now stmt params db with
    | inl e => mkOutcome (inl e) db [stmt]
    | inr (cur, db') => mkOutcome (inr cur) db' [stmt]
    end.

(** [cursor.fetchall()] is always a list; [cursor.fetchone()] is the first
    row or None.  Python's None is [None] here. *)
Definition fetchall (cur : cursor) : option (list tuple) := Some cur.

Definition fetchone (cur : cursor) : option tuple := hd_error cur.

(** [x == None] *)
Definition eq_None {A : Type} (x : option A) : bool :=
  match x with None => true | Some _ => false end.

(** ** datetime and timedelta *)

(** A naive [datetime]: microseconds on the local wall clock. *)
Definition datetime : Type := Z.

(** [datetime.now()] *)
Definition datetime_now : M datetime :=
  fun now db => mkOutcome (inr now) db [].

(** [datetime.fromisoformat] of a stored [YYYY-MM-DD HH:MM:SS]. *)
Definition fromisoformat (t : Z) : datetime := t * 1000000.

(** A [timedelta] is kept normalised: [0 <= seconds < 86400] and
    [0 <= microseconds < 1000000], the sign carried by [days]. *)
Record timedelta : Type := mkTimedelta {
  days : Z;
  seconds : Z;
  microseconds : Z
}.

Definition timedelta_of_microseconds (us : Z) : timedelta :=
  {| days := us / 86400000000;
     seconds := (us mod 86400000000) / 1000000;
     microseconds := us mod 1000000 |}.

(** [a - b] on two datetimes *)
Definition datetime_sub (a b : datetime) : timedelta :=
  timedelta_of_microseconds (a - b).

(** [timedelta.total_seconds()], rounded down to whole seconds; the methods
    do not call it, the claims about ages are stated with it. *)
Definition total_seconds (d : timedelta) : Z :=
  days d * 86400 + seconds d.

(** ** Configuration and the page object *)

(** The settings of [tools/config.py] that [Database] reads after it has
    opened the file. *)
Record Config : Type := mkConfig {
  DB_SAVE_SEARCHES : bool;
  DB_SAVE_PAGES : bool;
  DB_USE_SAVED_PAGES : bool;
  DB_PAGE_EXPIRATION_TIME : string
}.

(** Modelled from the spec: the page object of [tools/wikiparser.py], which
    is not among the sources; the spec gives it as "a page object with at
    minimum a title (string) and text (string) field ... reconstructable
    from (name, content) alone".  [load_page] builds it as
    [WikiParser(content, name)], text first. *)
Record WikiParserObject : Type := WikiParser {
  page_text : string;
  page_title : string
}.

(** ** The methods of [Database] *)

Section Database.

(** [cfg_parser.expiration_time_to_seconds], of [tools/cfg_parsing_utils.py]
    (not among the sources): the seconds a duration string such as "2h"
    stands for. *)
Variable expiration_time_to_seconds : string -> Z.

(** [save_search], db.py 39-47:
    [INSERT INTO Searches (text, datetime)
     VALUES (?, DATETIME('now', 'localtime'))] with [[search]]. *)
Definition save_search (config : Config) (search : string) : M unit :=
  if Bool.eqb (DB_SAVE_SEARCHES config) false then ret tt
  else
    execute (INSERT_INTO "Searches" ["text"; "datetime"]
                         [Qmark; DATETIME_now_localtime])
            [VStr search] ;;;
    ret tt.

(** [get_saved_pages], db.py 49-70; [limit=None] is the default.
    Without a limit:
      [SELECT P.id, P.name, P.datetime FROM Pages P ORDER BY P.id ASC];
    with a positive one:
      [SELECT P.id, S.name FROM Pages P ORDER BY P.id DESC LIMIT ?]
    with [[limit]]. *)
Definition get_saved_pages (limit : option Z) : M (option (list tuple)) :=
  pages <-
    match limit with
    | None =>
        cur <- execute
                 (SELECT [("P", "id"); ("P", "name"); ("P", "datetime")]
                         "Pages" "P" None (Some (("P", "id"), ASC)) None)
                 [] ;;
        ret (fetchall cur)
    | Some limit =>
        if (limit <=? 0)%Z then raise ValueError
        else
          cur <- execute
                   (SELECT [("P", "id"); ("S", "name")]
                           "Pages" "P" None (Some (("P", "id"), DESC))
                           (Some Qmark))
                   [VInt limit] ;;
          ret (fetchall cur)
    end ;;
  if eq_None pages then ret None
  else ret pages.

(** [get_saved_searches], db.py 72-93.  Without a limit:
      [SELECT S.id, S.text, S.datetime FROM Searches S ORDER BY S.id ASC];
    with a positive one:
      [SELECT S.id, S.text, S.datetime FROM Searches S
       ORDER BY S.id DESC LIMIT ?]
    with [[limit]]. *)
Definition get_saved_searches (limit : option Z) : M (option (list tuple)) :=
  searches <-
    match limit with
    | None =>
        cur <- execute
                 (SELECT [("S", "id"); ("S", "text"); ("S", "datetime")]
                         "Searches" "S" None (Some (("S", "id"), ASC)) None)
                 [] ;;
        ret (fetchall cur)
    | Some limit =>
        if (limit <=? 0)%Z then raise ValueError
        else
          cur <- execute
                   (SELECT [("S", "id"); ("S", "text"); ("S", "datetime")]
                           "Searches" "S" None (Some (("S", "id"), DESC))
                           (Some Qmark))
                   [VInt limit] ;;
          ret (fetchall cur)
    end ;;
  if eq_None searches then ret None
  else ret searches.

(** [clear_searches], db.py 96-100: [DELETE FROM Searches]. *)
Definition clear_searches : M unit :=
  execute (DELETE_FROM "Searches") [] ;;;
  ret tt.

(** [clear_saved_pages], db.py 102-106: [DELETE FROM Searches]. *)
Definition clear_saved_pages : M unit :=
  execute (DELETE_FROM "Searches") [] ;;;
  ret tt.

(** [save_page], db.py 108-123:
    [INSERT INTO Pages (name, content, datetime)
     VALUES (?, ?, DATETIME('now', 'localtime'))]
    with [[page_name, page_content]], and on IntegrityError
    [UPDATE Pages SET content = ?, datetime = DATETIME('now', 'localtime')
     WHERE name = ?]
    with [[page_content, page_name]]. *)
Definition save_page (config : Config) (page : WikiParserObject) : M unit :=
  if Bool.eqb (DB_SAVE_PAGES config) false then ret tt
  else
    let page_name := page_title page in
    let page_content := page_text page in
    try_except
      (execute (INSERT_INTO "Pages" ["name"; "content"; "datetime"]
                            [Qmark; Qmark; DATETIME_now_localtime])
               [VStr page_name; VStr page_content] ;;;
       ret tt)
      (fun e => match e with IntegrityError => true | _ => false end)
      (execute (UPDATE "Pages"
                       [("content", Qmark);
                        ("datetime", DATETIME_now_localtime)]
                       "name")
               [VStr page_content; VStr page_name] ;;;
       ret tt).

(** [page_needs_update], db.py 125-133. *)
Definition page_needs_update (config : Config) (date : datetime) : M bool :=
  let expiration_time :=
    expiration_time_to_seconds (DB_PAGE_EXPIRATION_TIME config) in
  now <- datetime_now ;;
  let cur_page_archival_time := seconds (datetime_sub now date) in
  if (cur_page_archival_time >? expiration_time)%Z then ret true
  else ret false.

(** [load_page], db.py 136-158:
    [SELECT P.name, P.content, P.datetime FROM Pages P WHERE p.name = ?]
    with [[page_name]].  The row [fetchone] hands back has the three
    selected cells, two texts and a timestamp, which
    [datetime.fromisoformat] reads; no other shape comes out of the query,
    and one that did would be a TypeError. *)
Definition load_page (config : Config) (page_name : string)
  : M (option WikiParserObject) :=
  if Bool.eqb (DB_USE_SAVED_PAGES config) false then ret None
  else
    cur <- execute
             (SELECT [("P", "name"); ("P", "content"); ("P", "datetime")]
                     "Pages" "P" (Some ("p", "name")) None None)
             [VStr page_name] ;;
    let page := fetchone cur in
    match page with
    | None => ret None
    | Some [VStr name; VStr content; VDatetime t] =>
        let date := fromisoformat t in
        stale <- page_needs_update config date ;;
        if stale then ret None
        else ret (Some (WikiParser content name))
    | Some _ => raise TypeError
    end.

(** ** Calls *)

(** One call of a public method, with its arguments. *)
Inductive operation : Type :=
| Call_save_search (search : string)
| Call_get_saved_pages (limit : option Z)
| Call_get_saved_searches (limit : option Z)
| Call_clear_searches
| Call_clear_saved_pages
| Call_save_page (page : WikiParserObject)
| Call_page_needs_update (date : datetime)
| Call_load_page (page_name : string).

(** The store a call leaves behind, whether it returned or raised. *)
Definition store_after (config : Config) (op : operation) (now : Z)
           (db : database) : database :=
  match op with
  | Call_save_search search => store (save_search config search now db)
  | Call_get_saved_pages limit => store (get_saved_pages limit now db)
  | Call_get_saved_searches limit => store (get_saved_searches limit now db)
  | Call_clear_searches => store (clear_searches now db)
  | Call_clear_saved_pages => store (clear_saved_pages now db)
  | Call_save_page page => store (save_page config page now db)
  | Call_page_needs_update date => store (page_needs_update config date now db)
  | Call_load_page page_name => store (load_page config page_name now db)
  end.

(** The stores the methods can produce from the freshly created tables. *)
Inductive reachable : database -> Prop :=
| reachable_empty : reachable empty_db
| reachable_call (config : Config) (op : operation) (now : Z) (db : database) :
    reachable db -> reachable (store_after config op now db).

(** ** Vocabulary of the statements *)

(** The rows of Pages called [name]. *)
Definition named (name : string) (r : PageRow) : bool :=
  String.eqb (page_name r) name.

(** The invariant the schema stands for: [name TEXT UNIQUE]. *)
Definition unique_names (db : database) : Prop :=
  NoDup (map page_name (Pages db)).

(** What the unlimited queries select of a row. *)
Definition page_tuple (r : PageRow) : tuple :=
  [VInt (page_id r); VStr (page_name r); VDatetime (page_datetime r)].

Definition search_tuple (r : SearchRow) : tuple :=
  [VInt (search_id r); VStr (search_text r); VDatetime (search_datetime r)].

(** The id of a result tuple, its first cell. *)
Definition tuple_id (t : tuple) : Z :=
  match t with
  | VInt n :: _ => n
  | _ => 0
  end.

Definition ascending_by_id (l : list tuple) : Prop :=
  StronglySorted (fun a b => tuple_id a <= tuple_id b) l.

Definition descending_by_id (l : list tuple) : Prop :=
  StronglySorted (fun a b => tuple_id b <= tuple_id a) l.

(** [UPDATE Pages SET content = ?, datetime = now WHERE name = ?] on a row *)
Definition refresh (name content : string) (t : Z) (r : PageRow) : PageRow :=
  if named name r then mkPage (page_id r) (page_name r) content t else r.

(** The two orders the queries ask for, on rows. *)
Definition pages_by_id (d : direction) : PageRow -> PageRow -> bool :=
  order_leb (fun r => VInt (page_id r)) d.

Definition searches_by_id (d : direction) : SearchRow -> SearchRow -> bool :=
  order_leb (fun r => VInt (search_id r)) d.

(** The statements of the source, by name. *)
Definition select_pages_all : statement :=
  SELECT [("P", "id"); ("P", "name"); ("P", "datetime")]
         "Pages" "P" None (Some (("P", "id"), ASC)) None.

Definition select_searches_all : statement :=
  SELECT [("S", "id"); ("S", "text"); ("S", "datetime")]
         "Searches" "S" None (Some (("S", "id"), ASC)) None.

Definition select_pages_limit : statement :=
  SELECT [("P", "id"); ("S", "name")]
         "Pages" "P" None (Some (("P", "id"), DESC)) (Some Qmark).

Definition select_searches_limit : statement :=
  SELECT [("S", "id"); ("S", "text"); ("S", "datetime")]
         "Searches" "S" None (Some (("S", "id"), DESC)) (Some Qmark).

Definition select_page_by_name : statement :=
  SELECT [("P", "name"); ("P", "content"); ("P", "datetime")]
         "Pages" "P" (Some ("p", "name")) None None.

Definition insert_page : statement :=
  INSERT_INTO "Pages" ["name"; "content"; "datetime"]
              [Qmark; Qmark; DATETIME_now_localtime].

Definition update_page : statement :=
  UPDATE "Pages" [("content", Qmark); ("datetime", DATETIME_now_localtime)]
         "name".

(** The row an INSERT into Pages appends. *)
Definition fresh_page (rows : list PageRow) (name content : string) (now : Z)
  : PageRow :=
  mkPage (next_rowid Pages_ops rows) name content (now / 1000000).

(** What [load_page] selects of a row. *)
Definition content_tuple (r : PageRow) : tuple :=
  [VStr (page_name r); VStr (page_content r); VDatetime (page_datetime r)].

(** The threshold in force, and the test [page_needs_update] applies to a
    stored row at wall-clock time [now]. *)
Definition threshold (config : Config) : Z :=
  expiration_time_to_seconds (DB_PAGE_EXPIRATION_TIME config).

Definition age (now : Z) (date : datetime) : timedelta := datetime_sub now date.

(** A computation that leaves every store as it found it, and one that
    leaves the Pages table so. *)
Definition read_only {A : Type} (m : M A) : Prop :=
  forall now db, store (m now db) = db.

Definition keeps_pages {A : Type} (m : M A) : Prop :=
  forall now db, Pages (store (m now db)) = Pages db.

(** ** Sample data *)

(** Everything switched on, pages expiring after two hours. *)
Definition sample_config : Config := mkConfig true true true "2h".

(** A duration parser as far as the samples need one: "2h" is 7200 s. *)
Definition two_hours (duration : string) : Z := 7200.

Definition page_A : WikiParserObject := WikiParser "text of A" "A".
Definition page_A' : WikiParserObject := WikiParser "new text of A" "A".
Definition page_B : WikiParserObject := WikiParser "text of B" "B".
Definition page_C : WikiParserObject := WikiParser "text of C" "C".

(** A fresh store after [save_page(A)] at second 1. *)
Definition store_A : database :=
  store (save_page sample_config page_A 1000000 empty_db).

(** ... after [save_page(B)] at second 2 and [save_page(C)] at second 3. *)
Definition store_ABC : database :=
  store (save_page sample_config page_C 3000000
           (store (save_page sample_config page_B 2000000 store_A))).

(** [store_A] after [save_search("query")] at second 2. *)
Definition store_A_query : database :=
  store (save_search sample_config "query" 2000000 store_A).

(** ** Primary keys and search rows *)

(** The invariant [id INTEGER PRIMARY KEY] stands for, in both tables. *)
Definition unique_ids (db : database) : Prop :=
  NoDup (map page_id (Pages db)) /\ NoDup (map search_id (Searches db)).

Definition insert_search : statement :=
  INSERT_INTO "Searches" ["text"; "datetime"] [Qmark; DATETIME_now_localtime].

(** The row an INSERT into Searches appends. *)
Definition fresh_search (rows : list SearchRow) (text : string) (now : Z)
  : SearchRow :=
  mkSearch (next_rowid Searches_ops rows) text (now / 1000000).

(** ** The database file and [__create_tables] *)

(** What [__create_tables] (db.py 25-37) finds in the file that
    [sqlite3.connect] opened: each table is there with its rows or missing,
    the index on Pages (name) is there or not. *)
Record db_file : Type := mkFile {
  file_Pages : option (list PageRow);
  file_idx_name : bool;
  file_Searches : option (list SearchRow)
}.

(** A file that was just created. *)
Definition new_file : db_file := mkFile None false None.

(** The three schema statements of the source:
    [CREATE TABLE Pages (id INTEGER PRIMARY KEY, name TEXT UNIQUE,
     content TEXT, datetime DATETIME)],
    [CREATE INDEX idx_name ON Pages (name)] and
    [CREATE TABLE Searches (id INTEGER PRIMARY KEY, text TEXT,
     datetime DATETIME)]. *)
Inductive schema_statement : Type :=
| CREATE_TABLE_Pages
| CREATE_INDEX_idx_name
| CREATE_TABLE_Searches.

(** Creating what is there already is an OperationalError, and so is an
    index on a table that is missing; a created table is empty. *)
Definition run_schema_statement (stmt : schema_statement) (f : db_file)
  : exception + db_file :=
  match stmt with
  | CREATE_TABLE_Pages =>
      match file_Pages f with
      | Some _ => inl OperationalError
      | None => inr (mkFile (Some []) (file_idx_name f) (file_Searches f))
      end
  | CREATE_INDEX_idx_name =>
      match file_Pages f with
      | None => inl OperationalError
      | Some rows =>
          if file_idx_name f then inl OperationalError
          else inr (mkFile (Some rows) true (file_Searches f))
      end
  | CREATE_TABLE_Searches =>
      match file_Searches f with
      | Some _ => inl OperationalError
      | None => inr (mkFile (file_Pages f) (file_idx_name f) (Some []))
      end
  end.

(** Computations on the file: what they return or raise, and the file they
    leave (autocommit: a statement that ran stays). *)
Definition F (A : Type) : Type := db_file -> (exception + A) * db_file.

Definition F_ret {A : Type} (a : A) : F A := fun f => (inr a, f).

Definition F_bind {A B : Type} (m : F A) (k : A -> F B) : F B :=
  fun f =>
    match m f with
    | (inl e, f') => (inl e, f')
    | (inr a, f') => k a f'
    end.

(** [try: m  except e: h] *)
Definition F_try {A : Type} (m : F A) (catches : exception -> bool) (h : F A)
  : F A :=
  fun f =>
    match m f with
    | (inl e, f') => if catches e then h f' else (inl e, f')
    | (inr a, f') => (inr a, f')
    end.

(** [self.__db.execute(sql)] for a schema statement *)
Definition execute_schema (stmt : schema_statement) : F unit :=
  fun f =>
    match run_schema_statement stmt f with
    | inl e => (inl e, f)
    | inr f' => (inr tt, f')
    end.

Definition is_OperationalError (e : exception) : bool :=
  match e with OperationalError => true | _ => false end.

(** [__create_tables], db.py 25-37: two [try] blocks, each passing over
    OperationalError. *)
Definition create_tables : F unit :=
  F_bind
    (F_try
       (F_bind (execute_schema CREATE_TABLE_Pages)
               (fun _ => execute_schema CREATE_INDEX_idx_name))
       is_OperationalError
       (F_ret tt))
    (fun _ =>
       F_try (execute_schema CREATE_TABLE_Searches)
             is_OperationalError
             (F_ret tt)).

(** The store the methods work on, once both tables are there. *)
Definition tables_of (f : db_file) : option database :=
  match file_Pages f, file_Searches f with
  | Some pages, Some searches => Some (mkDb pages searches)
  | _, _ => None
  end.

(** ** The command line: [cli.py] *)

(** [s.startswith(prefix)] and [x in l] on a list of strings. *)
Definition startswith (s pre : string) : bool := String.prefix pre s.

Definition str_in (x : string) (l : list string) : bool :=
  existsb (String.eqb x) l.

(** What [main] hands over to: [return services.f(...)] returns whatever the
    service returns. *)
Inductive service_call : Type :=
| get_dictionary_entry (args : list string) (do_formatting : bool)
| translate_word (args : list string)
| get_wiki_page (args : list string).

Definition service_args (call : service_call) : list string :=
  match call with
  | get_dictionary_entry args _ => args
  | translate_word args => args
  | get_wiki_page args => args
  end.

(** How a call of [main] ends. *)
Inductive main_result : Type :=
| Return (code : Z)
| Return_service (call : service_call)
| SystemExit (code : Z)             (* exit(code) *)
| Raise_TypeError                   (* ', '.join() without its argument *)
| Raise_IndexError.

(** [cli_ui.print_help_msg()], the one output of [main] itself. *)
Inductive cli_event : Type := print_help_msg.

Definition valid_options : list string := ["-r"; "--raw"; "-h"; "--help"].
Definition translate_mode_names : list string := ["t"; "tr"; "translate"].
Definition dict_mode_names : list string := ["d"; "dict"; "dictionary"].
Definition wiki_mode_names : list string := ["w"; "wiki"; "wikipedia"].

(** [[opt for opt in sys.argv if opt.startswith("-")]] *)
Definition options_of (argv : list string) : list string :=
  filter (fun opt => startswith opt "-") argv.

(** [[arg for arg in sys.argv[1:] if arg not in options]] *)
Definition positional_args_of (argv : list string) : list string :=
  filter (fun arg => negb (str_in arg (options_of argv))) (tl argv).

(** [[opt for opt in options if opt not in valid_options]] *)
Definition invalid_opts_of (argv : list string) : list string :=
  filter (fun opt => negb (str_in opt valid_options)) (options_of argv).

(** [main], cli.py 9-45, on [sys.argv]: the help messages it printed and
    how it ended.  The message about invalid options is never printed: its
    f-string calls [', '.join()], which raises. *)
Definition main (argv : list string) : list cli_event * main_result :=
  let options := options_of argv in
  let positional_args := positional_args_of argv in
  let invalid_opts := invalid_opts_of argv in
  if (0 <? List.length invalid_opts)%nat then ([], Raise_TypeError)
  else if (List.length positional_args <? 3)%nat
  then ([print_help_msg], SystemExit 1)
  else if str_in "-h" options || str_in "--help" options
  then ([print_help_msg], Return 0)
  else
    match positional_args with
    | [] => ([], Raise_IndexError)
    | mode :: rest =>
        if str_in mode dict_mode_names then
          ([], Return_service
                 (get_dictionary_entry
                    rest
                    (if str_in "-r" options || str_in "--raw" options
                     then false else true)))
        else if str_in mode translate_mode_names then
          ([], Return_service (translate_word rest))
        else if str_in mode wiki_mode_names then
          ([], Return_service (get_wiki_page rest))
        else ([print_help_msg], Return 1)
    end.

(** ** Keys below the largest *)

(** The largest key an INTEGER PRIMARY KEY can take.  While every key of a
    table is below it, the key of the next INSERT is the largest key plus
    one ([next_rowid]); at the top key SQLite tries unused keys at random
    instead, which [next_rowid] does not describe. *)
Definition top_rowid : Z := 2 ^ 63 - 1.

Definition searches_below_top (db : database) : Prop :=
  forall r, In r (Searches db) -> search_id r < top_rowid.

Definition pages_below_top (db : database) : Prop :=
  forall r, In r (Pages db) -> page_id r < top_rowid.

(** A Pages row with its content replaced. *)
Definition with_content (content : PageRow -> string) (r : PageRow)
  : PageRow :=
  mkPage (page_id r) (page_name r) (content r) (page_datetime r).

(** * Properties *)

(** ** Sorting *)

Section SortFacts.
Context {R : Type} (leb : R -> R -> bool).
Hypothesis leb_total : forall a b, leb a b = true \/ leb b a = true.
Hypothesis leb_trans :
  forall a b c, leb a b = true -> leb b c = true -> leb a c = true.

Let le (a b : R) : Prop := leb a b = true.

Lemma insert_row_perm (x : R) (l : list R) :
  Permutation (x :: l) (insert_row leb x l).
Proof.
  induction l as [|y ys IH]; simpl.
  - apply Permutation_refl.
  - destruct (leb x y).
    + apply Permutation_refl.
    + eapply perm_trans; [apply perm_swap|].
      now apply perm_skip.
Qed.

Lemma sort_rows_perm (l : list R) : Permutation l (sort_rows leb l).
Proof.
  induction l as [|x xs IH]; simpl.
  - constructor.
  - eapply perm_trans; [apply perm_skip, IH|apply insert_row_perm].
Qed.

Lemma insert_row_sorted (x : R) (l : list R) :
  StronglySorted le l -> StronglySorted le (insert_row leb x l).
Proof.
  induction 1 as [|y ys Hs IH Hall]; simpl.
  - repeat constructor.
  - destruct (leb x y) eqn:Exy.
    + constructor; [now constructor|].
      constructor; [exact Exy|].
      eapply Forall_impl; [|exact Hall].
      intros z Hz. now apply (leb_trans x y z).
    + assert (Hyx : le y x) by (destruct (leb_total x y); congruence).
      constructor; [exact IH|].
      eapply Permutation_Forall; [apply insert_row_perm|].
      now constructor.
Qed.

Lemma sort_rows_sorted (l : list R) : StronglySorted le (sort_rows leb l).
Proof.
  induction l as [|x xs IH]; simpl.
  - constructor.
  - now apply insert_row_sorted.
Qed.

End SortFacts.

Lemma StronglySorted_map {A B : Type} (f : A -> B) (P : B -> B -> Prop)
      (l : list A) :
  StronglySorted (fun a b => P (f a) (f b)) l -> StronglySorted P (map f l).
Proof.
  induction 1 as [|x xs Hs IH Hall]; simpl; constructor; auto.
  apply Forall_map. exact Hall.
Qed.

Lemma StronglySorted_impl {A : Type} (P Q : A -> A -> Prop) (l : list A) :
  (forall a b, P a b -> Q a b) -> StronglySorted P l -> StronglySorted Q l.
Proof.
  intros HPQ. induction 1 as [|x xs Hs IH Hall]; constructor; auto.
  eapply Forall_impl; [|exact Hall]. intros y. apply HPQ.
Qed.

Lemma In_firstn {A : Type} (n : nat) (l : list A) (x : A) :
  In x (firstn n l) -> In x l.
Proof.
  intros H. rewrite <- (firstn_skipn n l). apply in_or_app. now left.
Qed.

Lemma StronglySorted_firstn {A : Type} (P : A -> A -> Prop) (n : nat)
      (l : list A) :
  StronglySorted P l -> StronglySorted P (firstn n l).
Proof.
  intros H. revert n.
  induction H as [|x xs Hs IH Hall]; intros [|n]; simpl; constructor; auto.
  rewrite Forall_forall in *. intros y Hy.
  apply Hall. eapply In_firstn; eauto.
Qed.

Lemma by_id_total {R : Type} (id : R -> Z) (d : direction) (a b : R) :
  order_leb (fun r => VInt (id r)) d a b = true \/
  order_leb (fun r => VInt (id r)) d b a = true.
Proof. destruct d; simpl; lia. Qed.

Lemma by_id_trans {R : Type} (id : R -> Z) (d : direction) (a b c : R) :
  order_leb (fun r => VInt (id r)) d a b = true ->
  order_leb (fun r => VInt (id r)) d b c = true ->
  order_leb (fun r => VInt (id r)) d a c = true.
Proof. destruct d; simpl; lia. Qed.

Lemma sorted_pages_ascending (rows : list PageRow) :
  ascending_by_id (map page_tuple (sort_rows (pages_by_id ASC) rows)).
Proof.
  apply StronglySorted_map.
  eapply StronglySorted_impl;
    [|apply sort_rows_sorted; [apply by_id_total|apply by_id_trans]].
  intros a b H. simpl in *. lia.
Qed.

(** ** What each statement of the source does *)

Lemma get_saved_pages_all (now : Z) (db : database) :
  get_saved_pages None now db =
  mkOutcome
    (inr (Some (map page_tuple (sort_rows (pages_by_id ASC) (Pages db)))))
    db [select_pages_all].
Proof. reflexivity. Qed.

Lemma get_saved_searches_all (now : Z) (db : database) :
  get_saved_searches None now db =
  mkOutcome
    (inr (Some (map search_tuple
                    (sort_rows (searches_by_id ASC) (Searches db)))))
    db [select_searches_all].
Proof. reflexivity. Qed.

(** The select list of the limited Pages query names the alias [S], which
    the statement does not introduce: it never compiles. *)
Lemma select_pages_limit_fails (now : Z) (params : list value) (db : database) :
  run_statement now select_pages_limit params db = inl OperationalError.
Proof. reflexivity. Qed.

Lemma get_saved_pages_limit (limit now : Z) (db : database) :
  0 < limit ->
  get_saved_pages (Some limit) now db =
  mkOutcome (inl OperationalError) db [select_pages_limit].
Proof.
  intros H. unfold get_saved_pages.
  destruct (limit <=? 0) eqn:E; [lia|]. reflexivity.
Qed.

Lemma get_saved_limit_nonpositive (limit now : Z) (db : database) :
  limit <= 0 ->
  get_saved_pages (Some limit) now db = mkOutcome (inl ValueError) db [] /\
  get_saved_searches (Some limit) now db = mkOutcome (inl ValueError) db [].
Proof.
  intros H. unfold get_saved_pages, get_saved_searches.
  destruct (limit <=? 0) eqn:E; [|lia]. split; reflexivity.
Qed.

Lemma execute_returns (stmt : statement) (params : list value) (now : Z)
      (db db' : database) (cur : cursor) :
  run_statement now stmt params db = inr (cur, db') ->
  execute stmt params now db = mkOutcome (inr cur) db' [stmt].
Proof. intros H. unfold execute. now rewrite H. Qed.

Lemma execute_raises (stmt : statement) (params : list value) (now : Z)
      (db : database) (e : exception) :
  run_statement now stmt params db = inl e ->
  execute stmt params now db = mkOutcome (inl e) db [stmt].
Proof. intros H. unfold execute. now rewrite H. Qed.

Lemma bind_one_int (n : Z) :
  - 2 ^ 63 <= n < 2 ^ 63 -> bind_parameters 1 [VInt n] = None.
Proof.
  intros H. unfold bind_parameters. simpl List.length. simpl negb.
  unfold forallb, int64_ok.
  destruct (- 2 ^ 63 <=? n) eqn:E1; [|lia].
  destruct (n <? 2 ^ 63) eqn:E2; [reflexivity|lia].
Qed.

Lemma run_select_searches_limit (limit now : Z) (db : database) :
  0 < limit < 2 ^ 63 ->
  run_statement now select_searches_limit [VInt limit] db =
  inr (map search_tuple
           (firstn (Z.to_nat limit)
                   (sort_rows (searches_by_id DESC) (Searches db))), db).
Proof.
  intros H.
  assert (B : bind_parameters 1 [VInt limit] = None)
    by (apply bind_one_int; lia).
  unfold run_statement, select_searches_limit, select.
  change (ident_eqb "Searches" "Pages") with false.
  change (ident_eqb "Searches" "Searches") with true.
  cbv iota.
  change (resolve_all Searches_ops "S" _) with (Some
    [fun r => VInt (search_id r); fun r => VStr (search_text r);
     fun r => VDatetime (search_datetime r)]).
  cbn [resolve_opt option_map fst is_some Nat.add].
  change (resolve Searches_ops "S" ("S", "id")) with
    (Some (INTEGER, fun r : SearchRow => VInt (search_id r))).
  cbv iota. cbn [is_some Nat.add]. rewrite B.
  unfold where_rows, limit_rows, order_rows.
  destruct (limit <? 0) eqn:E; [lia|]. reflexivity.
Qed.

Lemma get_saved_searches_limit (limit now : Z) (db : database) :
  0 < limit < 2 ^ 63 ->
  get_saved_searches (Some limit) now db =
  mkOutcome
    (inr (Some (map search_tuple
                    (firstn (Z.to_nat limit)
                            (sort_rows (searches_by_id DESC) (Searches db))))))
    db [select_searches_limit].
Proof.
  intros H. unfold get_saved_searches.
  destruct (limit <=? 0) eqn:E; [lia|].
  pose proof (execute_returns _ _ _ _ _ _
                (run_select_searches_limit limit now db H)) as X.
  unfold select_searches_limit in X. unfold bind. rewrite X.
  reflexivity.
Qed.

Lemma insert_page_rows (now : Z) (name content : string) (rows : list PageRow) :
  insert Pages_ops now ["name"; "content"; "datetime"]
         [Qmark; Qmark; DATETIME_now_localtime]
         [VStr name; VStr content] rows =
  if existsb (named name) rows then inl IntegrityError
  else inr (rows ++ [fresh_page rows name content now]).
Proof. reflexivity. Qed.

Lemma run_insert_page (now : Z) (name content : string) (db : database) :
  run_statement now insert_page [VStr name; VStr content] db =
  if existsb (named name) (Pages db) then inl IntegrityError
  else inr ([], mkDb (Pages db ++ [fresh_page (Pages db) name content now])
                     (Searches db)).
Proof.
  unfold run_statement, insert_page.
  change (ident_eqb "Pages" "Pages") with true. cbv iota.
  rewrite insert_page_rows.
  now destruct (existsb (named name) (Pages db)).
Qed.

Lemma update_page_rows (name content : string) (t : Z) (rows : list PageRow) :
  update_rows Pages_ops [("content", VStr content); ("datetime", VDatetime t)]
              (fun r => value_eqb (VStr (page_name r)) (VStr name)) rows =
  Some (map (refresh name content t) rows).
Proof.
  induction rows as [|r rows IH]; [reflexivity|].
  cbn [update_rows map]. rewrite IH.
  unfold refresh, named. cbn [value_eqb].
  destruct (String.eqb (page_name r) name); reflexivity.
Qed.

Lemma run_update_page (now : Z) (name content : string) (db : database) :
  run_statement now update_page [VStr content; VStr name] db =
  inr ([], mkDb (map (refresh name content (now / 1000000)) (Pages db))
                (Searches db)).
Proof.
  unfold run_statement, update_page.
  change (ident_eqb "Pages" "Pages") with true. cbv iota.
  assert (E : update Pages_ops now
                [("content", Qmark); ("datetime", DATETIME_now_localtime)]
                "name" [VStr content; VStr name] (Pages db) =
              match update_rows Pages_ops
                      [("content", VStr content);
                       ("datetime", VDatetime (now / 1000000))]
                      (fun r => value_eqb (VStr (page_name r)) (VStr name))
                      (Pages db) with
              | Some rows' => inr rows'
              | None => inl ProgrammingError
              end) by reflexivity.
  rewrite E, update_page_rows. reflexivity.
Qed.

Lemma save_page_disabled (config : Config) (page : WikiParserObject) (now : Z)
      (db : database) :
  DB_SAVE_PAGES config = false ->
  save_page config page now db = mkOutcome (inr tt) db [].
Proof. intros H. unfold save_page. now rewrite H. Qed.

Lemma save_page_enabled (config : Config) (page : WikiParserObject) (now : Z)
      (db : database) :
  DB_SAVE_PAGES config = true ->
  save_page config page now db =
  if existsb (named (page_title page)) (Pages db)
  then mkOutcome (inr tt)
         (mkDb (map (refresh (page_title page) (page_text page) (now / 1000000))
                    (Pages db))
               (Searches db))
         [insert_page; update_page]
  else mkOutcome (inr tt)
         (mkDb (Pages db ++
                [fresh_page (Pages db) (page_title page) (page_text page) now])
               (Searches db))
         [insert_page].
Proof.
  intros H. unfold save_page. rewrite H. cbn [Bool.eqb].
  pose proof (run_insert_page now (page_title page) (page_text page) db) as I.
  pose proof (run_update_page now (page_title page) (page_text page) db) as U.
  apply execute_returns in U.
  unfold insert_page in I. unfold update_page in U.
  unfold try_except, bind.
  destruct (existsb (named (page_title page)) (Pages db)).
  - apply execute_raises in I. rewrite I. cbn. rewrite U. reflexivity.
  - apply execute_returns in I. rewrite I. reflexivity.
Qed.

Lemma run_select_page_by_name (now : Z) (name : string) (db : database) :
  run_statement now select_page_by_name [VStr name] db =
  inr (map content_tuple (filter (named name) (Pages db)), db).
Proof. reflexivity. Qed.

Lemma page_needs_update_eq (config : Config) (date : datetime) (now : Z)
      (db : database) :
  page_needs_update config date now db =
  mkOutcome (inr (seconds (age now date) >? threshold config)) db [].
Proof.
  unfold page_needs_update, bind, datetime_now,
    age, threshold.
  cbn [returned store executed].
  destruct (seconds (datetime_sub now date) >? _); reflexivity.
Qed.

Lemma load_page_disabled (config : Config) (name : string) (now : Z)
      (db : database) :
  DB_USE_SAVED_PAGES config = false ->
  load_page config name now db = mkOutcome (inr None) db [].
Proof. intros H. unfold load_page. now rewrite H. Qed.

Lemma load_page_enabled (config : Config) (name : string) (now : Z)
      (db : database) :
  DB_USE_SAVED_PAGES config = true ->
  load_page config name now db =
  mkOutcome
    (inr match filter (named name) (Pages db) with
         | [] => None
         | r :: _ =>
             if seconds (age now (fromisoformat (page_datetime r)))
                >? threshold config
             then None
             else Some (WikiParser (page_content r) (page_name r))
         end)
    db [select_page_by_name].
Proof.
  intros H. unfold load_page. rewrite H. cbn [Bool.eqb].
  pose proof (run_select_page_by_name now name db) as S.
  apply execute_returns in S. unfold select_page_by_name in S.
  unfold bind at 1. rewrite S. cbn [returned store executed].
  destruct (filter (named name) (Pages db)) as [|r rest]; [reflexivity|].
  cbn [map fetchone hd_error content_tuple].
  unfold bind. rewrite page_needs_update_eq. cbn [returned store executed].
  destruct (seconds _ >? _); reflexivity.
Qed.

(** ** Frames *)

Lemma read_only_ret {A : Type} (a : A) : read_only (ret a).
Proof. intros now db. reflexivity. Qed.

Lemma read_only_raise {A : Type} (e : exception) : read_only (@raise A e).
Proof. intros now db. reflexivity. Qed.

Lemma read_only_datetime_now : read_only datetime_now.
Proof. intros now db. reflexivity. Qed.

Lemma read_only_bind {A B : Type} (m : M A) (k : A -> M B) :
  read_only m -> (forall a, read_only (k a)) -> read_only (bind m k).
Proof.
  intros Hm Hk now db. unfold bind.
  destruct (returned (m now db)) as [e|a] eqn:E; cbn [store].
  - apply Hm.
  - rewrite Hk. apply Hm.
Qed.

Lemma read_only_select cols from alias where_eq order_by limit params :
  read_only (execute (SELECT cols from alias where_eq order_by limit) params).
Proof.
  intros now db. unfold execute, run_statement.
  destruct (ident_eqb from "Pages").
  - now destruct (select Pages_ops _ _ _ _ _ _ _).
  - destruct (ident_eqb from "Searches"); [|reflexivity].
    now destruct (select Searches_ops _ _ _ _ _ _ _).
Qed.

Lemma read_only_keeps_pages {A : Type} (m : M A) : read_only m -> keeps_pages m.
Proof. intros H now db. now rewrite H. Qed.

Lemma keeps_pages_bind {A B : Type} (m : M A) (k : A -> M B) :
  keeps_pages m -> (forall a, keeps_pages (k a)) -> keeps_pages (bind m k).
Proof.
  intros Hm Hk now db. unfold bind.
  destruct (returned (m now db)) as [e|a] eqn:E; cbn [store].
  - apply Hm.
  - rewrite Hk. apply Hm.
Qed.

Lemma keeps_pages_on_Searches (stmt : statement) (params : list value) :
  match stmt with
  | INSERT_INTO table _ _ | UPDATE table _ _ | DELETE_FROM table =>
      ident_eqb table "Pages" = false
  | SELECT _ _ _ _ _ _ => True
  end ->
  keeps_pages (execute stmt params).
Proof.
  intros H now db. unfold execute.
  destruct (run_statement now stmt params db) as [e|[cur db']] eqn:E;
    [reflexivity|]. cbn [store].
  destruct stmt as [cols from alias w o l|table cols vals|table sets w|table];
    unfold run_statement in E.
  - destruct (ident_eqb from "Pages").
    + destruct (select Pages_ops _ _ _ _ _ _ _); congruence.
    + destruct (ident_eqb from "Searches"); [|discriminate].
      destruct (select Searches_ops _ _ _ _ _ _ _); congruence.
  - rewrite H in E.
    destruct (ident_eqb table "Searches"); [|discriminate].
    destruct (insert Searches_ops _ _ _ _ _); [discriminate|].
    now inversion E.
  - rewrite H in E.
    destruct (ident_eqb table "Searches"); [|discriminate].
    destruct (update Searches_ops _ _ _ _ _); [discriminate|].
    now inversion E.
  - rewrite H in E.
    destruct (ident_eqb table "Searches"); [|discriminate].
    destruct params; [|discriminate]. now inversion E.
Qed.

Create HintDb frame.
#[local] Hint Resolve read_only_ret read_only_raise read_only_datetime_now
  read_only_select : frame.

Ltac frame :=
  repeat first
    [ apply read_only_bind; [|intros ?]
    | progress auto with frame
    | match goal with
      | |- read_only (if ?b then _ else _) => destruct b
      | |- read_only (match ?x with _ => _ end) => destruct x
      end ].

Lemma get_saved_pages_read_only (limit : option Z) :
  read_only (get_saved_pages limit).
Proof. unfold get_saved_pages. frame. Qed.

Lemma get_saved_searches_read_only (limit : option Z) :
  read_only (get_saved_searches limit).
Proof. unfold get_saved_searches. frame. Qed.

Lemma page_needs_update_read_only (config : Config) (date : datetime) :
  read_only (page_needs_update config date).
Proof. intros now db. now rewrite page_needs_update_eq. Qed.

Lemma load_page_read_only (config : Config) (name : string) :
  read_only (load_page config name).
Proof.
  intros now db. destruct (DB_USE_SAVED_PAGES config) eqn:E.
  - now rewrite load_page_enabled.
  - now rewrite load_page_disabled.
Qed.

Lemma save_search_keeps_pages (config : Config) (search : string) :
  keeps_pages (save_search config search).
Proof.
  unfold save_search. destruct (Bool.eqb _ _).
  - apply read_only_keeps_pages, read_only_ret.
  - apply keeps_pages_bind.
    + now apply keeps_pages_on_Searches.
    + intros _. apply read_only_keeps_pages, read_only_ret.
Qed.

Lemma clear_keeps_pages :
  keeps_pages clear_searches /\ keeps_pages clear_saved_pages.
Proof.
  split; apply keeps_pages_bind;
    try (now apply keeps_pages_on_Searches);
    intros _; apply read_only_keeps_pages, read_only_ret.
Qed.

(** ** One row per name *)

Lemma named_true (name : string) (r : PageRow) :
  named name r = true <-> page_name r = name.
Proof. unfold named. apply String.eqb_eq. Qed.

Lemma existsb_named (name : string) (rows : list PageRow) :
  existsb (named name) rows = true <-> In name (map page_name rows).
Proof.
  rewrite existsb_exists, in_map_iff.
  split; intros [r [H1 H2]]; exists r.
  - apply named_true in H2. tauto.
  - split; [exact H2|now apply named_true].
Qed.

Lemma filter_named_absent (name : string) (rows : list PageRow) :
  ~ In name (map page_name rows) -> filter (named name) rows = [].
Proof.
  induction rows as [|r rows IH]; intros H; [reflexivity|].
  cbn [filter]. destruct (named name r) eqn:E.
  - apply named_true in E. exfalso. apply H. now left.
  - apply IH. intros Hin. apply H. now right.
Qed.

Lemma filter_named_unique (name : string) (rows : list PageRow) :
  NoDup (map page_name rows) ->
  (List.length (filter (named name) rows) <= 1)%nat.
Proof.
  induction rows as [|r rows IH]; intros H; cbn [filter]; [cbn; lia|].
  cbn [map] in H. apply NoDup_cons_iff in H as [Hnot Hnd].
  destruct (named name r) eqn:E.
  - apply named_true in E. subst name.
    rewrite (filter_named_absent _ _ Hnot). cbn. lia.
  - now apply IH.
Qed.

Lemma filter_named_present (name : string) (rows : list PageRow) :
  In name (map page_name rows) ->
  (1 <= List.length (filter (named name) rows))%nat.
Proof.
  intros H. apply in_map_iff in H as [r [Hn Hin]].
  assert (Hf : In r (filter (named name) rows)).
  { apply filter_In. split; [exact Hin|now apply named_true]. }
  destruct (filter (named name) rows); [contradiction|cbn; lia].
Qed.

Lemma refresh_name (name content : string) (t : Z) (r : PageRow) :
  page_name (refresh name content t r) = page_name r.
Proof. unfold refresh. now destruct (named name r). Qed.

Lemma refresh_names (name content : string) (t : Z) (rows : list PageRow) :
  map page_name (map (refresh name content t) rows) = map page_name rows.
Proof.
  rewrite map_map. apply map_ext. intros r. apply refresh_name.
Qed.

(** The names in Pages after an enabled [save_page]: the same ones, or one
    more at the end. *)
Lemma save_page_names (config : Config) (page : WikiParserObject) (now : Z)
      (db : database) :
  DB_SAVE_PAGES config = true ->
  map page_name (Pages (store (save_page config page now db))) =
  if existsb (named (page_title page)) (Pages db)
  then map page_name (Pages db)
  else map page_name (Pages db) ++ [page_title page].
Proof.
  intros H. rewrite (save_page_enabled _ _ _ _ H).
  destruct (existsb _ _); cbn [store Pages].
  - apply refresh_names.
  - now rewrite map_app.
Qed.

Lemma save_page_unique_names (config : Config) (page : WikiParserObject)
      (now : Z) (db : database) :
  unique_names db -> unique_names (store (save_page config page now db)).
Proof.
  intros U. unfold unique_names in *.
  destruct (DB_SAVE_PAGES config) eqn:E.
  - rewrite (save_page_names _ _ _ _ E).
    destruct (existsb _ _) eqn:X; [exact U|].
    apply NoDup_app; [exact U|repeat constructor; intros []|].
    intros n Hn [Hq|[]]. subst n.
    apply existsb_named in Hn. congruence.
  - now rewrite save_page_disabled.
Qed.

Lemma store_after_unique_names (config : Config) (op : operation) (now : Z)
      (db : database) :
  unique_names db -> unique_names (store_after config op now db).
Proof.
  intros U. unfold unique_names in *.
  destruct op; cbn [store_after].
  - now rewrite save_search_keeps_pages.
  - now rewrite get_saved_pages_read_only.
  - now rewrite get_saved_searches_read_only.
  - now rewrite (proj1 clear_keeps_pages).
  - now rewrite (proj2 clear_keeps_pages).
  - now apply save_page_unique_names.
  - now rewrite page_needs_update_read_only.
  - now rewrite load_page_read_only.
Qed.

(** Every store the methods produce has one Pages row per name. *)
Lemma reachable_unique_names (db : database) :
  reachable db -> unique_names db.
Proof.
  induction 1 as [|config op now db _ IH].
  - constructor.
  - now apply store_after_unique_names.
Qed.

(** C1.  A store keeps one Pages row per name: after an enabled
    [save_page] there is exactly one row (so at most one) with the page's
    title; a row that had the title before is still there under its old id,
    now with the page's text and the time of the call; the call returns;
    and no call of any method breaks the one-row-per-name invariant. *)
Theorem save_page_upsert (config : Config) (page : WikiParserObject)
        (now : Z) (db : database) :
  unique_names db ->
  DB_SAVE_PAGES config = true ->
  let db' := store (save_page config page now db) in
  returned (save_page config page now db) = inr tt /\
  (List.length (filter (named (page_title page)) (Pages db')) <= 1)%nat /\
  List.length (filter (named (page_title page)) (Pages db')) = 1%nat /\
  (forall r, In r (Pages db) -> page_name r = page_title page ->
     In (mkPage (page_id r) (page_title page) (page_text page) (now / 1000000))
        (Pages db')) /\
  (forall op cfg t s, unique_names s -> unique_names (store_after cfg op t s)).
Proof.
  intros U E db'.
  assert (U' : unique_names db') by now apply save_page_unique_names.
  assert (L : (List.length (filter (named (page_title page)) (Pages db'))
               <= 1)%nat)
    by now apply filter_named_unique.
  assert (P : In (page_title page) (map page_name (Pages db'))).
  { unfold db'. rewrite (save_page_names _ _ _ _ E).
    destruct (existsb _ _) eqn:X.
    - now apply existsb_named.
    - apply in_or_app. right. now left. }
  apply filter_named_present in P.
  repeat split.
  - rewrite (save_page_enabled _ _ _ _ E). now destruct (existsb _ _).
  - exact L.
  - lia.
  - intros r Hin Hname. unfold db'.
    rewrite (save_page_enabled _ _ _ _ E).
    assert (X : existsb (named (page_title page)) (Pages db) = true).
    { apply existsb_named, in_map_iff. now exists r. }
    rewrite X. cbn [store Pages].
    apply in_map_iff. exists r. split; [|exact Hin].
    unfold refresh. apply named_true in Hname. rewrite Hname.
    apply named_true in Hname. now rewrite Hname.
  - intros op cfg t s. apply store_after_unique_names.
Qed.

(** ** Clearing *)

(** C2.  [clear_saved_pages] runs the statement of [clear_searches]: it
    empties Searches and keeps every row of Pages, as on a store with one
    page and one search. *)
Theorem clear_saved_pages_clears_searches (now : Z) (db : database) :
  clear_saved_pages now db =
    mkOutcome (inr tt) (mkDb (Pages db) []) [DELETE_FROM "Searches"] /\
  clear_searches now db =
    mkOutcome (inr tt) (mkDb (Pages db) []) [DELETE_FROM "Searches"] /\
  Pages store_A_query = [mkPage 1 "A" "text of A" 1] /\
  Searches store_A_query = [mkSearch 1 "query" 2] /\
  store (clear_saved_pages now store_A_query) =
    mkDb [mkPage 1 "A" "text of A" 1] [].
Proof. repeat split; reflexivity. Qed.

(** ** Listing *)

Lemma get_saved_pages_all_ascending (now : Z) (db : database) :
  exists l,
    returned (get_saved_pages None now db) = inr (Some l) /\
    Permutation l (map page_tuple (Pages db)) /\
    ascending_by_id l.
Proof.
  exists (map page_tuple (sort_rows (pages_by_id ASC) (Pages db))).
  rewrite get_saved_pages_all. repeat split.
  - apply Permutation_map, Permutation_sym, sort_rows_perm.
  - apply sorted_pages_ascending.
Qed.

Lemma get_saved_searches_all_ascending (now : Z) (db : database) :
  exists l,
    returned (get_saved_searches None now db) = inr (Some l) /\
    Permutation l (map search_tuple (Searches db)) /\
    ascending_by_id l.
Proof.
  exists (map search_tuple (sort_rows (searches_by_id ASC) (Searches db))).
  rewrite get_saved_searches_all. repeat split.
  - apply Permutation_map, Permutation_sym, sort_rows_perm.
  - apply StronglySorted_map.
    eapply StronglySorted_impl;
      [|apply sort_rows_sorted; [apply by_id_total|apply by_id_trans]].
    intros a b H. simpl in *. lia.
Qed.

(** The limited Searches query: the first [limit] of the rows taken newest
    first. *)
Lemma get_saved_searches_limit_descending (limit now : Z) (db : database) :
  0 < limit < 2 ^ 63 ->
  exists l,
    Permutation l (map search_tuple (Searches db)) /\
    descending_by_id l /\
    returned (get_saved_searches (Some limit) now db) =
      inr (Some (firstn (Z.to_nat limit) l)).
Proof.
  intros H.
  exists (map search_tuple (sort_rows (searches_by_id DESC) (Searches db))).
  repeat split.
  - apply Permutation_map, Permutation_sym, sort_rows_perm.
  - apply StronglySorted_map.
    eapply StronglySorted_impl;
      [|apply sort_rows_sorted; [apply by_id_total|apply by_id_trans]].
    intros a b Hab. simpl in *. lia.
  - rewrite (get_saved_searches_limit _ _ _ H). cbn [returned].
    now rewrite firstn_map.
Qed.

Lemma get_saved_searches_limit_is_descending (limit now : Z) (db : database) :
  0 < limit < 2 ^ 63 ->
  exists l,
    returned (get_saved_searches (Some limit) now db) = inr (Some l) /\
    descending_by_id l /\
    List.length l = Nat.min (Z.to_nat limit) (List.length (Searches db)).
Proof.
  intros H.
  destruct (get_saved_searches_limit_descending limit now db H)
    as [l [P [D E]]].
  exists (firstn (Z.to_nat limit) l). repeat split.
  - exact E.
  - now apply StronglySorted_firstn.
  - rewrite length_firstn, (Permutation_length P), length_map. reflexivity.
Qed.

(** A limit that does not fit SQLite's 64-bit INTEGER is refused when it is
    bound. *)
Lemma get_saved_searches_limit_overflow (limit now : Z) (db : database) :
  2 ^ 63 <= limit ->
  get_saved_searches (Some limit) now db =
  mkOutcome (inl OverflowError) db [select_searches_limit].
Proof.
  intros H. unfold get_saved_searches.
  destruct (limit <=? 0) eqn:E; [lia|].
  assert (X : run_statement now select_searches_limit [VInt limit] db =
              inl OverflowError).
  { assert (B : bind_parameters 1 [VInt limit] = Some OverflowError).
    { unfold bind_parameters. simpl List.length. simpl negb.
      unfold forallb, int64_ok.
      destruct (limit <? 2 ^ 63) eqn:E2; [lia|].
      now rewrite andb_false_r. }
    unfold run_statement, select_searches_limit, select.
    change (ident_eqb "Searches" "Pages") with false.
    change (ident_eqb "Searches" "Searches") with true.
    cbv iota.
    change (resolve_all Searches_ops "S" _) with (Some
      [fun r => VInt (search_id r); fun r => VStr (search_text r);
       fun r => VDatetime (search_datetime r)]).
    cbn [resolve_opt option_map fst is_some Nat.add].
    change (resolve Searches_ops "S" ("S", "id")) with
      (Some (INTEGER, fun r : SearchRow => VInt (search_id r))).
    cbv iota. cbn [is_some Nat.add]. now rewrite B. }
  apply execute_raises in X. unfold select_searches_limit in X.
  unfold bind. rewrite X. reflexivity.
Qed.

(** C4.  With pages A, B, C saved in that order, [get_saved_pages()] lists
    them oldest first, [get_saved_searches(limit=2)] lists the two newest
    searches newest first, and [get_saved_pages(limit=2)] raises
    OperationalError instead of listing C, B: its select list reads
    [S.name] in a statement whose only table is aliased [P]. *)
Theorem get_saved_pages_limit_raises :
  returned (get_saved_pages None 0 store_ABC) =
    inr (Some [[VInt 1; VStr "A"; VDatetime 1];
               [VInt 2; VStr "B"; VDatetime 2];
               [VInt 3; VStr "C"; VDatetime 3]]) /\
  returned
    (get_saved_searches (Some 2) 0
       (store (save_search sample_config "second" 5000000
          (store (save_search sample_config "first" 4000000 store_ABC))))) =
    inr (Some [[VInt 2; VStr "second"; VDatetime 5];
               [VInt 1; VStr "first"; VDatetime 4]]) /\
  get_saved_pages (Some 2) 0 store_ABC =
    mkOutcome (inl OperationalError) store_ABC [select_pages_limit].
Proof. repeat split; reflexivity. Qed.

(** C5.  A limit that is zero or negative makes both listings raise
    ValueError before any statement runs, the store untouched; without a
    limit both return every row of their table. *)
Theorem nonpositive_limit_raises_ValueError (limit now : Z) (db : database) :
  limit <= 0 ->
  get_saved_pages (Some limit) now db = mkOutcome (inl ValueError) db [] /\
  get_saved_searches (Some limit) now db = mkOutcome (inl ValueError) db [] /\
  (exists l, returned (get_saved_pages None now db) = inr (Some l) /\
             Permutation l (map page_tuple (Pages db))) /\
  (exists l, returned (get_saved_searches None now db) = inr (Some l) /\
             Permutation l (map search_tuple (Searches db))).
Proof.
  intros H.
  destruct (get_saved_limit_nonpositive limit now db H) as [P S].
  destruct (get_saved_pages_all_ascending now db) as [lp [Hp [Pp _]]].
  destruct (get_saved_searches_all_ascending now db) as [ls [Hs [Ps _]]].
  repeat split; eauto.
Qed.

(** C9.  On an empty table the unlimited listings return the empty list;
    whatever the store and the limit, neither listing returns None, because
    what [fetchall] gives is never None. *)
Theorem listings_never_return_None :
  (forall now searches,
     returned (get_saved_pages None now (mkDb [] searches)) = inr (Some [])) /\
  (forall now pages,
     returned (get_saved_searches None now (mkDb pages [])) = inr (Some [])) /\
  (forall cur, eq_None (fetchall cur) = false) /\
  (forall limit now db,
     returned (get_saved_pages limit now db) <> inr None /\
     returned (get_saved_searches limit now db) <> inr None).
Proof.
  repeat split; try reflexivity.
  - unfold get_saved_pages.
    destruct limit as [limit|]; [|discriminate].
    destruct (limit <=? 0); [discriminate|].
    unfold bind. destruct (execute _ _ now db) as [[e|cur] db' ex];
      cbn; discriminate.
  - unfold get_saved_searches.
    destruct limit as [limit|]; [|discriminate].
    destruct (limit <=? 0); [discriminate|].
    unfold bind. destruct (execute _ _ now db) as [[e|cur] db' ex];
      cbn; discriminate.
Qed.

(** ** Ages *)

Lemma total_seconds_eq (us : Z) :
  total_seconds (timedelta_of_microseconds us) = us / 1000000.
Proof.
  unfold total_seconds, timedelta_of_microseconds. cbn [days seconds].
  rewrite (Z.div_mod us 86400000000) at 3 by lia.
  replace (86400000000 * (us / 86400000000))
    with (us / 86400000000 * 86400 * 1000000) by lia.
  rewrite Z.div_add_l by lia. reflexivity.
Qed.

Lemma seconds_range (us : Z) :
  0 <= seconds (timedelta_of_microseconds us) < 86400.
Proof.
  unfold timedelta_of_microseconds. cbn [seconds].
  pose proof (Z.mod_pos_bound us 86400000000 ltac:(lia)) as B.
  split.
  - apply Z.div_pos; lia.
  - apply Z.div_lt_upper_bound; lia.
Qed.

(** From the first day on the seconds field and the age part ways. *)
Lemma seconds_le_total_seconds (us : Z) :
  0 <= us ->
  seconds (timedelta_of_microseconds us) <=
  total_seconds (timedelta_of_microseconds us).
Proof.
  intros H. unfold total_seconds.
  assert (0 <= days (timedelta_of_microseconds us)).
  { unfold timedelta_of_microseconds. cbn [days]. apply Z.div_pos; lia. }
  lia.
Qed.

Lemma seconds_within_a_day (us : Z) :
  0 <= us < 86400000000 ->
  seconds (timedelta_of_microseconds us) =
  total_seconds (timedelta_of_microseconds us).
Proof.
  intros H. unfold total_seconds, timedelta_of_microseconds.
  cbn [days seconds]. rewrite (Z.div_small us) by lia. lia.
Qed.

(** Where the staleness test is the one the documentation describes: while
    the row is less than a day old (and not from the future). *)
Lemma page_needs_update_within_a_day (config : Config) (date : datetime)
      (now : Z) (db : database) :
  0 <= now - date < 86400000000 ->
  returned (page_needs_update config date now db) =
  inr (total_seconds (age now date) >? threshold config).
Proof.
  intros H. rewrite page_needs_update_eq. cbn [returned].
  unfold age, datetime_sub. now rewrite seconds_within_a_day.
Qed.

(** After a whole day the seconds field starts again from 0. *)
Lemma page_needs_update_after_a_day (config : Config) (date : datetime)
      (db : database) :
  total_seconds (age (date + 86400000000) date) = 86400 /\
  returned (page_needs_update config date (date + 86400000000) db) =
  inr (0 >? threshold config).
Proof.
  rewrite page_needs_update_eq. unfold age, datetime_sub.
  replace (date + 86400000000 - date) with 86400000000 by lia.
  split; reflexivity.
Qed.

(** ** Loading *)

Lemma filter_named_refresh (name content : string) (t : Z)
      (rows : list PageRow) :
  filter (named name) (map (refresh name content t) rows) =
  map (fun r => mkPage (page_id r) name content t) (filter (named name) rows).
Proof.
  induction rows as [|r rows IH]; [reflexivity|].
  cbn [map filter]. destruct (named name r) eqn:E.
  - assert (R : refresh name content t r = mkPage (page_id r) name content t).
    { unfold refresh. rewrite E. apply named_true in E. now rewrite E. }
    rewrite R. unfold named at 1. cbn [page_name]. rewrite String.eqb_refl.
    cbn [map]. now rewrite IH.
  - assert (R : refresh name content t r = r)
      by (unfold refresh; now rewrite E).
    rewrite R, E. exact IH.
Qed.

(** What a lookup by the title finds first after an enabled save. *)
Lemma lookup_after_save (config : Config) (page : WikiParserObject) (now : Z)
      (db : database) :
  DB_SAVE_PAGES config = true ->
  exists id rest,
    filter (named (page_title page))
           (Pages (store (save_page config page now db))) =
    mkPage id (page_title page) (page_text page) (now / 1000000) :: rest.
Proof.
  intros H. rewrite (save_page_enabled _ _ _ _ H).
  destruct (existsb _ _) eqn:X; cbn [store Pages].
  - rewrite filter_named_refresh.
    apply existsb_named, filter_named_present in X.
    destruct (filter (named (page_title page)) (Pages db)) as [|r rest];
      [cbn in X; lia|].
    cbn [map]. eauto.
  - rewrite filter_app, filter_named_absent.
    + cbn [filter app fresh_page]. unfold named at 1. cbn [page_name].
      rewrite String.eqb_refl.
      exists (next_rowid Pages_ops (Pages db)), []. reflexivity.
    + intros Hin. apply existsb_named in Hin. congruence.
Qed.

(** C6, as amended.  With DB_SAVE_PAGES off, [save_page] returns without
    running a statement and the store is as before; so a [load_page] of
    that title afterwards answers what it answered before the save, which
    with DB_USE_SAVED_PAGES on is None when the title was not in the store.
    With DB_USE_SAVED_PAGES off, [load_page] returns None for every name
    without running a statement, also right after a save that did store the
    page. *)
Theorem toggle_gating (config : Config) (page : WikiParserObject)
        (now now' : Z) (db : database) :
  (DB_SAVE_PAGES config = false ->
     save_page config page now db = mkOutcome (inr tt) db [] /\
     load_page config (page_title page) now'
               (store (save_page config page now db)) =
       load_page config (page_title page) now' db /\
     (DB_USE_SAVED_PAGES config = true ->
      ~ In (page_title page) (map page_name (Pages db)) ->
      returned (load_page config (page_title page) now'
                          (store (save_page config page now db)))
      = inr None)) /\
  (DB_USE_SAVED_PAGES config = false ->
     (forall name s,
        load_page config name now' s = mkOutcome (inr None) s []) /\
     (forall saving,
        DB_SAVE_PAGES saving = true ->
        let s := store (save_page saving page now db) in
        In (page_title page) (map page_name (Pages s)) /\
        load_page config (page_title page) now' s = mkOutcome (inr None) s [])).
Proof.
  split.
  - intros Hs. rewrite (save_page_disabled _ _ _ _ Hs). cbn [store].
    split; [reflexivity|]. split; [reflexivity|].
    intros Hu Hnot.
    rewrite (load_page_enabled _ _ _ _ Hu). cbn [returned].
    now rewrite (filter_named_absent _ _ Hnot).
  - intros Hu. split.
    + intros name s. now apply load_page_disabled.
    + intros saving Hs s. split; [|now apply load_page_disabled].
      destruct (lookup_after_save saving page now db Hs) as [id [rest F]].
      fold s in F. apply in_map_iff.
      exists (mkPage id (page_title page) (page_text page) (now / 1000000)).
      split; [reflexivity|].
      apply (proj1 (filter_In (named (page_title page)) _ (Pages s))).
      rewrite F. now left.
Qed.

(** C7.  With DB_SAVE_PAGES and DB_USE_SAVED_PAGES on, a [load_page] of the
    title at a time [now'] not before the save and with the stored
    timestamp at most the threshold old returns the page that was saved. *)
Theorem save_then_load_round_trip (config : Config) (page : WikiParserObject)
        (now now' : Z) (db : database) :
  DB_SAVE_PAGES config = true ->
  DB_USE_SAVED_PAGES config = true ->
  now <= now' ->
  total_seconds (age now' (fromisoformat (now / 1000000)))
    <= threshold config ->
  returned (load_page config (page_title page) now'
                      (store (save_page config page now db))) =
  inr (Some page).
Proof.
  intros Hs Hu Hle Hwin.
  rewrite (load_page_enabled _ _ _ _ Hu). cbn [returned].
  destruct (lookup_after_save config page now db Hs) as [id [rest F]].
  rewrite F. cbn [page_datetime page_content page_name].
  assert (Hage : seconds (age now' (fromisoformat (now / 1000000)))
                 <= threshold config).
  { eapply Z.le_trans; [|exact Hwin].
    unfold age, datetime_sub. apply seconds_le_total_seconds.
    unfold fromisoformat.
    pose proof (Z.mul_div_le now 1000000 ltac:(lia)). lia. }
  destruct (seconds _ >? threshold config) eqn:G; [lia|].
  now destruct page.
Qed.

(** C8.  [load_page] leaves both tables as they were, whatever it returns:
    None with the toggle off, None for a name without a row, None for a row
    that [page_needs_update] finds stale, and the page built from the row
    otherwise; the one statement it may run is the SELECT by name, and every
    row, a stale one too, is still in Pages afterwards. *)
Theorem load_page_never_modifies (config : Config) (name : string) (now : Z)
        (db : database) :
  store (load_page config name now db) = db /\
  returned (load_page config name now db) =
    inr (if DB_USE_SAVED_PAGES config then
           match filter (named name) (Pages db) with
           | [] => None
           | r :: _ =>
               if seconds (age now (fromisoformat (page_datetime r)))
                  >? threshold config
               then None
               else Some (WikiParser (page_content r) (page_name r))
           end
         else None) /\
  executed (load_page config name now db) =
    (if DB_USE_SAVED_PAGES config then [select_page_by_name] else []) /\
  (forall r, In r (Pages db) ->
             In r (Pages (store (load_page config name now db)))).
Proof.
  destruct (DB_USE_SAVED_PAGES config) eqn:E.
  - rewrite (load_page_enabled _ _ _ _ E). repeat split. intros r H; exact H.
  - rewrite (load_page_disabled _ _ _ _ E). repeat split. intros r H; exact H.
Qed.

(** * Further properties of the store *)

(** ** Row ids *)

Lemma fold_left_max_bounds (l : list Z) (a : Z) :
  a <= fold_left Z.max l a /\ forall x, In x l -> x <= fold_left Z.max l a.
Proof.
  revert a. induction l as [|y l IH]; intros a; cbn [fold_left].
  - split; [lia|intros x []].
  - destruct (IH (Z.max a y)) as [Ha Hl]. split; [lia|].
    intros x [Hx|Hx]; [subst x; lia|now apply Hl].
Qed.

(** The key SQLite assigns is larger than every key in the table. *)
Lemma next_rowid_fresh {R : Type} (T : table_ops R) (rows : list R) (r : R) :
  In r rows -> t_rowid T r < next_rowid T rows.
Proof.
  intros H. unfold next_rowid.
  apply (in_map (t_rowid T)) in H.
  destruct (map (t_rowid T) rows) as [|i ids]; [destruct H|].
  destruct (fold_left_max_bounds ids i) as [Hi Hids].
  destruct H as [H|H]; [subst i; lia|].
  specialize (Hids _ H). lia.
Qed.

Lemma fold_left_max_below (l : list Z) (a m : Z) :
  a < m -> (forall x, In x l -> x < m) -> fold_left Z.max l a < m.
Proof.
  revert a. induction l as [|y l IH]; intros a Ha Hl; cbn [fold_left].
  - exact Ha.
  - apply IH.
    + specialize (Hl y (or_introl eq_refl)). lia.
    + intros x Hx. apply Hl. now right.
Qed.

(** Below the top key the assigned key is a key again. *)
Lemma next_rowid_below_top {R : Type} (T : table_ops R) (rows : list R) :
  (forall r, In r rows -> t_rowid T r < top_rowid) ->
  next_rowid T rows <= top_rowid.
Proof.
  intros H. unfold next_rowid.
  assert (Hm : forall x, In x (map (t_rowid T) rows) -> x < top_rowid).
  { intros x Hx. apply in_map_iff in Hx as [r [<- Hr]]. now apply H. }
  destruct (map (t_rowid T) rows) as [|i ids].
  - unfold top_rowid. lia.
  - assert (fold_left Z.max ids i < top_rowid).
    { apply fold_left_max_below.
      - apply Hm. now left.
      - intros x Hx. apply Hm. now right. }
    lia.
Qed.

Lemma NoDup_app_fresh (l : list Z) (x : Z) :
  NoDup l -> (forall y, In y l -> y < x) -> NoDup (l ++ [x]).
Proof.
  intros Hl Hlt. apply NoDup_app; [exact Hl|repeat constructor; intros []|].
  intros y Hy [Hx|[]]. subst y. specialize (Hlt _ Hy). lia.
Qed.

Lemma existsb_never {A : Type} (l : list A) : existsb (fun _ => false) l = false.
Proof. induction l; auto. Qed.

(** ** Saving searches *)

Lemma run_insert_search (now : Z) (text : string) (db : database) :
  run_statement now insert_search [VStr text] db =
  inr ([], mkDb (Pages db)
                (Searches db ++ [fresh_search (Searches db) text now])).
Proof.
  unfold run_statement, insert_search.
  change (ident_eqb "Searches" "Pages") with false.
  change (ident_eqb "Searches" "Searches") with true. cbv iota.
  assert (E : insert Searches_ops now ["text"; "datetime"]
                [Qmark; DATETIME_now_localtime] [VStr text] (Searches db) =
              if existsb (fun _ => false) (Searches db)
              then inl IntegrityError
              else inr (Searches db ++ [fresh_search (Searches db) text now]))
    by reflexivity.
  rewrite E, existsb_never. reflexivity.
Qed.

Lemma save_search_disabled (config : Config) (search : string) (now : Z)
      (db : database) :
  DB_SAVE_SEARCHES config = false ->
  save_search config search now db = mkOutcome (inr tt) db [].
Proof. intros H. unfold save_search. now rewrite H. Qed.

Lemma save_search_enabled (config : Config) (search : string) (now : Z)
      (db : database) :
  DB_SAVE_SEARCHES config = true ->
  save_search config search now db =
  mkOutcome (inr tt)
            (mkDb (Pages db)
                  (Searches db ++ [fresh_search (Searches db) search now]))
            [insert_search].
Proof.
  intros H. unfold save_search. rewrite H. cbn [Bool.eqb].
  pose proof (run_insert_search now search db) as I.
  apply execute_returns in I. unfold insert_search in I.
  unfold bind. rewrite I. reflexivity.
Qed.

(** X1.  [save_search] does nothing when DB_SAVE_SEARCHES is off.  When it
    is on and every id of Searches is below the largest key, it returns,
    leaves Pages alone and appends one row to Searches: the text, the
    second of the call, and an id above every id in the table (1 in an
    empty table) that is a key again; a text that is there already gets one
    more row. *)
Theorem save_search_appends (config : Config) (search : string) (now : Z)
        (db : database) :
  (DB_SAVE_SEARCHES config = false ->
   save_search config search now db = mkOutcome (inr tt) db []) /\
  (DB_SAVE_SEARCHES config = true ->
   searches_below_top db ->
   exists id,
     save_search config search now db =
       mkOutcome (inr tt)
                 (mkDb (Pages db)
                       (Searches db ++ [mkSearch id search (now / 1000000)]))
                 [insert_search] /\
     (forall r, In r (Searches db) -> search_id r < id) /\
     id <= top_rowid /\
     (Searches db = [] -> id = 1) /\
     List.length
       (filter (fun r => String.eqb (search_text r) search)
               (Searches (store (save_search config search now db)))) =
     S (List.length
          (filter (fun r => String.eqb (search_text r) search) (Searches db)))).
Proof.
  split; [apply save_search_disabled|].
  intros H B. exists (next_rowid Searches_ops (Searches db)).
  rewrite (save_search_enabled _ _ _ _ H). repeat split.
  - intros r Hr. now apply (next_rowid_fresh Searches_ops).
  - now apply (next_rowid_below_top Searches_ops).
  - intros E. now rewrite E.
  - cbn [store Searches]. rewrite filter_app, length_app.
    cbn [filter fresh_search search_text]. rewrite String.eqb_refl.
    cbn [List.length]. lia.
Qed.

(** ** Primary keys *)

Lemma refresh_ids (name content : string) (t : Z) (rows : list PageRow) :
  map page_id (map (refresh name content t) rows) = map page_id rows.
Proof.
  rewrite map_map. apply map_ext. intros r. unfold refresh.
  now destruct (named name r).
Qed.

Lemma store_after_unique_ids (config : Config) (op : operation) (now : Z)
      (db : database) :
  unique_ids db -> unique_ids (store_after config op now db).
Proof.
  intros [UP US]. unfold unique_ids.
  destruct op as [search|limit|limit| | |page|date|name]; cbn [store_after].
  - destruct (DB_SAVE_SEARCHES config) eqn:E.
    + rewrite (save_search_enabled _ _ _ _ E). cbn [store Pages Searches].
      split; [exact UP|]. rewrite map_app. cbn [map fresh_search search_id].
      apply NoDup_app_fresh; [exact US|].
      intros y Hy. apply in_map_iff in Hy as [r [Hr Hin]]. subst y.
      now apply (next_rowid_fresh Searches_ops).
    + now rewrite (save_search_disabled _ _ _ _ E).
  - now rewrite get_saved_pages_read_only.
  - now rewrite get_saved_searches_read_only.
  - change (store (clear_searches now db)) with (mkDb (Pages db) []).
    split; [exact UP|constructor].
  - change (store (clear_saved_pages now db)) with (mkDb (Pages db) []).
    split; [exact UP|constructor].
  - destruct (DB_SAVE_PAGES config) eqn:E.
    + rewrite (save_page_enabled _ _ _ _ E).
      destruct (existsb _ _); cbn [store Pages Searches]; (split; [|exact US]).
      * now rewrite refresh_ids.
      * rewrite map_app. cbn [map fresh_page page_id].
        apply NoDup_app_fresh; [exact UP|].
        intros y Hy. apply in_map_iff in Hy as [r [Hr Hin]]. subst y.
        now apply (next_rowid_fresh Pages_ops).
    + now rewrite (save_page_disabled _ _ _ _ E).
  - now rewrite page_needs_update_read_only.
  - now rewrite load_page_read_only.
Qed.

(** Every store the methods produce has unique ids. *)
Lemma reachable_unique_ids (db : database) : reachable db -> unique_ids db.
Proof.
  induction 1 as [|config op now db _ IH].
  - split; constructor.
  - now apply store_after_unique_ids.
Qed.

(** X2.  No call of any method makes two rows of a table share an id: the
    primary keys of Pages and of Searches stay unique. *)
Theorem primary_keys_stay_unique (config : Config) (op : operation) (now : Z)
        (db : database) :
  unique_ids db -> unique_ids (store_after config op now db).
Proof. apply store_after_unique_ids. Qed.

(** ** Listing after saving *)

Section SortAppend.
Context {R : Type} (leb : R -> R -> bool).

Lemma insert_row_before_last (x r : R) (s : list R) :
  leb x r = true -> insert_row leb x (s ++ [r]) = insert_row leb x s ++ [r].
Proof.
  intros H. induction s as [|y s IH]; cbn [app insert_row].
  - now rewrite H.
  - destruct (leb x y); [reflexivity|]. now rewrite IH.
Qed.

(** A row that every other row comes before is sorted to the end ... *)
Lemma sort_rows_app_last (l : list R) (r : R) :
  (forall x, In x l -> leb x r = true) ->
  sort_rows leb (l ++ [r]) = sort_rows leb l ++ [r].
Proof.
  induction l as [|x l IH]; intros H; [reflexivity|].
  cbn [app sort_rows]. rewrite IH by (intros y Hy; apply H; now right).
  apply insert_row_before_last. apply H. now left.
Qed.

(** ... and one that no other row comes before, to the front. *)
Lemma sort_rows_app_first (l : list R) (r : R) :
  (forall x, In x l -> leb x r = false) ->
  sort_rows leb (l ++ [r]) = r :: sort_rows leb l.
Proof.
  induction l as [|x l IH]; intros H; [reflexivity|].
  cbn [app sort_rows]. rewrite IH by (intros y Hy; apply H; now right).
  cbn [insert_row]. now rewrite (H x (or_introl eq_refl)).
Qed.

Lemma insert_row_map (f : R -> R) (x : R) (l : list R) :
  (forall a b, leb (f a) (f b) = leb a b) ->
  insert_row leb (f x) (map f l) = map f (insert_row leb x l).
Proof.
  intros H. induction l as [|y l IH]; [reflexivity|].
  cbn [map insert_row]. rewrite H.
  destruct (leb x y); cbn [map]; [reflexivity|now rewrite IH].
Qed.

(** Rewriting rows without touching what they are ordered by commutes with
    sorting. *)
Lemma sort_rows_map (f : R -> R) (l : list R) :
  (forall a b, leb (f a) (f b) = leb a b) ->
  sort_rows leb (map f l) = map f (sort_rows leb l).
Proof.
  intros H. induction l as [|x l IH]; [reflexivity|].
  cbn [map sort_rows]. rewrite IH. now apply insert_row_map.
Qed.

End SortAppend.

Lemma get_saved_searches_one (now : Z) (db : database) :
  get_saved_searches (Some 1) now db =
  mkOutcome
    (inr (Some (map search_tuple
                    (firstn 1 (sort_rows (searches_by_id DESC) (Searches db))))))
    db [select_searches_limit].
Proof.
  rewrite get_saved_searches_limit by (split; [lia|reflexivity]).
  reflexivity.
Qed.

(** X3.  On a store whose search ids are all below the largest key, right
    after an enabled [save_search], [get_saved_searches(limit=1)] is the
    search just saved, and the unlimited listing is the listing of before
    with that search added at the end. *)
Theorem save_search_then_list (config : Config) (search : string)
        (now now' : Z) (db : database) :
  DB_SAVE_SEARCHES config = true ->
  searches_below_top db ->
  exists id l,
    id <= top_rowid /\
    returned (get_saved_searches None now' db) = inr (Some l) /\
    returned (get_saved_searches None now'
                (store (save_search config search now db))) =
      inr (Some (l ++ [[VInt id; VStr search; VDatetime (now / 1000000)]])) /\
    returned (get_saved_searches (Some 1) now'
                (store (save_search config search now db))) =
      inr (Some [[VInt id; VStr search; VDatetime (now / 1000000)]]).
Proof.
  intros H B.
  exists (next_rowid Searches_ops (Searches db)),
         (map search_tuple (sort_rows (searches_by_id ASC) (Searches db))).
  split; [now apply (next_rowid_below_top Searches_ops)|].
  rewrite (save_search_enabled _ _ _ _ H). cbn [store].
  rewrite !get_saved_searches_all, get_saved_searches_one.
  cbn [returned Searches]. repeat split.
  - rewrite sort_rows_app_last, map_app; [reflexivity|].
    intros x Hx. apply (next_rowid_fresh Searches_ops) in Hx.
    unfold searches_by_id, order_leb, value_leb, fresh_search.
    cbn [search_id t_rowid Searches_ops] in *. lia.
  - rewrite sort_rows_app_first; [reflexivity|].
    intros x Hx. apply (next_rowid_fresh Searches_ops) in Hx.
    unfold searches_by_id, order_leb, value_leb, fresh_search.
    cbn [search_id t_rowid Searches_ops] in *. lia.
Qed.

(** X4.  For a limit from 1 up to 2^63 - 1, [get_saved_searches(limit)]
    returns the first [limit] of the rows of Searches taken newest first
    (all of them when there are fewer), and leaves the store as it was. *)
Theorem get_saved_searches_newest_first (limit now : Z) (db : database) :
  0 < limit < 2 ^ 63 ->
  exists l,
    Permutation l (map search_tuple (Searches db)) /\
    descending_by_id l /\
    returned (get_saved_searches (Some limit) now db) =
      inr (Some (firstn (Z.to_nat limit) l)) /\
    List.length (firstn (Z.to_nat limit) l) =
      Nat.min (Z.to_nat limit) (List.length (Searches db)) /\
    store (get_saved_searches (Some limit) now db) = db.
Proof.
  intros H.
  destruct (get_saved_searches_limit_descending limit now db H)
    as [l [P [D E]]].
  exists l. repeat split; try assumption.
  - now rewrite length_firstn, (Permutation_length P), length_map.
  - apply get_saved_searches_read_only.
Qed.

(** X5.  A limit of 2^63 or more does not fit the INTEGER it is bound to:
    [get_saved_searches] raises OverflowError and the store is as before. *)
Theorem get_saved_searches_huge_limit (limit now : Z) (db : database) :
  2 ^ 63 <= limit ->
  returned (get_saved_searches (Some limit) now db) = inl OverflowError /\
  store (get_saved_searches (Some limit) now db) = db.
Proof.
  intros H. now rewrite (get_saved_searches_limit_overflow _ _ _ H).
Qed.

(** X6.  Whatever the store, [get_saved_pages] with a positive limit raises
    OperationalError, its statement naming the alias [S] that it does not
    define; the store is as before. *)
Theorem get_saved_pages_positive_limit (limit now : Z) (db : database) :
  0 < limit ->
  returned (get_saved_pages (Some limit) now db) = inl OperationalError /\
  store (get_saved_pages (Some limit) now db) = db /\
  executed (get_saved_pages (Some limit) now db) = [select_pages_limit].
Proof.
  intros H. now rewrite (get_saved_pages_limit _ _ _ H).
Qed.

(** X7.  The two listings never change the store, whatever the limit and
    whether they return or raise. *)
Theorem listings_leave_the_store (limit : option Z) (now : Z) (db : database) :
  store (get_saved_pages limit now db) = db /\
  store (get_saved_searches limit now db) = db.
Proof.
  split; [apply get_saved_pages_read_only|apply get_saved_searches_read_only].
Qed.

(** X8.  After [clear_searches] the listing of searches is empty, Pages is
    untouched, and the next search saved gets id 1 again. *)
Theorem clear_searches_then (config : Config) (search : string)
        (now now' now'' : Z) (db : database) :
  let db' := store (clear_searches now db) in
  returned (clear_searches now db) = inr tt /\
  Pages db' = Pages db /\
  returned (get_saved_searches None now' db') = inr (Some []) /\
  (DB_SAVE_SEARCHES config = true ->
   Searches (store (save_search config search now'' db')) =
   [mkSearch 1 search (now'' / 1000000)]).
Proof.
  intros db'. repeat split.
  intros H. rewrite (save_search_enabled _ _ _ _ H). reflexivity.
Qed.

(** ** Saving pages *)

Lemma refresh_other (title content : string) (t : Z) (r : PageRow) :
  page_name r <> title -> refresh title content t r = r.
Proof.
  intros H. unfold refresh. destruct (named title r) eqn:E; [|reflexivity].
  apply named_true in E. contradiction.
Qed.

(** X9.  An enabled [save_page] leaves Searches alone, keeps every row
    under another name exactly as it was, adds no row under another name,
    keeps the id and the name of every row, and makes Pages one row longer
    exactly when the title is new. *)
Theorem save_page_touches_one_row (config : Config) (page : WikiParserObject)
        (now : Z) (db : database) :
  DB_SAVE_PAGES config = true ->
  let db' := store (save_page config page now db) in
  Searches db' = Searches db /\
  (forall r, page_name r <> page_title page ->
             (In r (Pages db') <-> In r (Pages db))) /\
  (forall r, In r (Pages db) ->
             exists r', In r' (Pages db') /\
                        page_id r' = page_id r /\ page_name r' = page_name r) /\
  List.length (Pages db') =
    (List.length (Pages db) +
     if existsb (named (page_title page)) (Pages db) then 0 else 1)%nat.
Proof.
  intros H db'. unfold db'. rewrite (save_page_enabled _ _ _ _ H).
  destruct (existsb _ _) eqn:X; cbn [store Pages Searches].
  - repeat split.
    + intros Hin. apply in_map_iff in Hin as [r0 [Hr Hin]].
      destruct (String.eqb_spec (page_name r0) (page_title page)) as [E|E].
      * exfalso. apply H0. rewrite <- Hr, refresh_name. exact E.
      * rewrite refresh_other in Hr by exact E. now subst r0.
    + intros Hin. apply in_map_iff. exists r. split; [|exact Hin].
      now apply refresh_other.
    + intros r Hin. exists (refresh (page_title page) (page_text page)
                                    (now / 1000000) r).
      split; [now apply in_map|]. split; [|apply refresh_name].
      unfold refresh. now destruct (named _ r).
    + rewrite length_map. lia.
  - repeat split.
    + intros Hin. apply in_app_or in Hin as [Hin|[Hin|[]]]; [exact Hin|].
      subst r. now contradiction H0.
    + intros Hin. apply in_or_app. now left.
    + intros r Hin. exists r. split; [|split; reflexivity].
      apply in_or_app. now left.
    + rewrite length_app. reflexivity.
Qed.

Lemma pages_by_id_refresh (d : direction) (title content : string) (t : Z)
      (a b : PageRow) :
  pages_by_id d (refresh title content t a) (refresh title content t b) =
  pages_by_id d a b.
Proof.
  assert (I : forall r, page_id (refresh title content t r) = page_id r).
  { intros r. unfold refresh. now destruct (named title r). }
  unfold pages_by_id, order_leb. destruct d; now rewrite !I.
Qed.

(** X10.  On a store whose page ids are all below the largest key, the
    unlimited listing of pages keeps the order of first saves: saving a
    title again leaves every page at its place in [get_saved_pages()], with
    its id and name and only the timestamp of that title renewed; saving a
    new title adds it at the end. *)
Theorem save_page_then_list (config : Config) (page : WikiParserObject)
        (now now' : Z) (db : database) :
  DB_SAVE_PAGES config = true ->
  pages_below_top db ->
  exists rows id,
    id <= top_rowid /\
    Permutation rows (Pages db) /\
    returned (get_saved_pages None now' db) = inr (Some (map page_tuple rows)) /\
    returned (get_saved_pages None now'
                (store (save_page config page now db))) =
      inr (Some
             (if existsb (named (page_title page)) (Pages db)
              then map page_tuple
                       (map (refresh (page_title page) (page_text page)
                                     (now / 1000000)) rows)
              else map page_tuple rows ++
                   [[VInt id; VStr (page_title page);
                     VDatetime (now / 1000000)]])).
Proof.
  intros H B.
  exists (sort_rows (pages_by_id ASC) (Pages db)),
         (next_rowid Pages_ops (Pages db)).
  split; [now apply (next_rowid_below_top Pages_ops)|].
  rewrite (save_page_enabled _ _ _ _ H), !get_saved_pages_all.
  split; [apply Permutation_sym, sort_rows_perm|]. split; [reflexivity|].
  destruct (existsb _ _); cbn [returned store Pages].
  - rewrite sort_rows_map; [reflexivity|].
    intros a b. apply pages_by_id_refresh.
  - rewrite sort_rows_app_last, map_app; [reflexivity|].
    intros x Hx. apply (next_rowid_fresh Pages_ops) in Hx.
    unfold pages_by_id, order_leb, value_leb, fresh_page.
    cbn [page_id t_rowid Pages_ops] in *. lia.
Qed.

(** ** The staleness test *)

Lemma seconds_periodic (us k : Z) :
  seconds (timedelta_of_microseconds (us + k * 86400000000)) =
  seconds (timedelta_of_microseconds us).
Proof.
  unfold timedelta_of_microseconds. cbn [seconds].
  now rewrite Z_mod_plus_full.
Qed.

(** X11.  While a row is less than a day old (and not from the future),
    [page_needs_update] is true exactly when its age in whole seconds is
    above the threshold; an age equal to the threshold is not stale. *)
Theorem page_needs_update_first_day (config : Config) (date : datetime)
        (now : Z) (db : database) :
  0 <= now - date < 86400000000 ->
  page_needs_update config date now db =
  mkOutcome (inr (total_seconds (age now date) >? threshold config)) db [] /\
  total_seconds (age now date) = (now - date) / 1000000.
Proof.
  intros H. rewrite page_needs_update_eq.
  unfold age, datetime_sub. rewrite seconds_within_a_day by exact H.
  split; [reflexivity|apply total_seconds_eq].
Qed.

(** X12.  [page_needs_update] sees the age modulo one day: shifting the
    clock by whole days does not change its answer, and with a threshold of
    86399 s or more it never answers True. *)
Theorem page_needs_update_modulo_a_day (config : Config) (date : datetime)
        (now : Z) (db : database) :
  (forall k,
     returned (page_needs_update config date (now + k * 86400000000) db) =
     returned (page_needs_update config date now db)) /\
  (86399 <= threshold config ->
   returned (page_needs_update config date now db) = inr false).
Proof.
  split.
  - intros k. rewrite !page_needs_update_eq. cbn [returned].
    unfold age, datetime_sub.
    replace (now + k * 86400000000 - date)
      with (now - date + k * 86400000000) by lia.
    now rewrite seconds_periodic.
  - intros H. rewrite page_needs_update_eq. cbn [returned].
    pose proof (seconds_range (now - date)) as B.
    unfold age, datetime_sub.
    destruct (seconds _ >? threshold config) eqn:G; [lia|reflexivity].
Qed.

(** ** Loading, again *)

Lemma load_page_depends_on_Pages (config : Config) (name : string) (now : Z)
      (db1 db2 : database) :
  Pages db1 = Pages db2 ->
  returned (load_page config name now db1) =
  returned (load_page config name now db2).
Proof.
  intros H. destruct (DB_USE_SAVED_PAGES config) eqn:E.
  - rewrite !(load_page_enabled _ _ _ _ E). cbn [returned]. now rewrite H.
  - now rewrite !(load_page_disabled _ _ _ _ E).
Qed.

Lemma filter_named_refresh_other (name title content : string) (t : Z)
      (rows : list PageRow) :
  title <> name ->
  filter (named name) (map (refresh title content t) rows) =
  filter (named name) rows.
Proof.
  intros H. induction rows as [|r rows IH]; [reflexivity|].
  cbn [map filter]. rewrite IH.
  destruct (String.eqb_spec (page_name r) title) as [E|E].
  - assert (N : forall r', page_name r' = title -> named name r' = false).
    { intros r' Hr. unfold named. apply String.eqb_neq. congruence. }
    rewrite (N r E), (N (refresh title content t r)); [reflexivity|].
    now rewrite refresh_name.
  - now rewrite refresh_other.
Qed.

(** X13.  What [load_page] returns is stored under exactly the name asked
    for: a page comes back only with DB_USE_SAVED_PAGES on, its title is
    the name, and its text is the content of a row of Pages with that name
    whose age passed the staleness test. *)
Theorem load_page_returns_stored (config : Config) (name : string) (now : Z)
        (db : database) (p : WikiParserObject) :
  returned (load_page config name now db) = inr (Some p) ->
  DB_USE_SAVED_PAGES config = true /\
  page_title p = name /\
  exists r,
    In r (Pages db) /\ page_name r = name /\ page_content r = page_text p /\
    seconds (age now (fromisoformat (page_datetime r))) <= threshold config.
Proof.
  intros H. destruct (DB_USE_SAVED_PAGES config) eqn:E.
  - rewrite (load_page_enabled _ _ _ _ E) in H. cbn [returned] in H.
    destruct (filter (named name) (Pages db)) as [|r rest] eqn:F;
      [discriminate|].
    assert (Hr : In r (filter (named name) (Pages db)))
      by (rewrite F; now left).
    apply filter_In in Hr as [Hin Hn]. apply named_true in Hn.
    destruct (seconds _ >? threshold config) eqn:G; [discriminate|].
    injection H as H. subst p. cbn [page_title page_text].
    split; [reflexivity|]. split; [exact Hn|].
    exists r. repeat split; try assumption. lia.
  - rewrite (load_page_disabled _ _ _ _ E) in H. discriminate.
Qed.

(** X14.  [load_page] never raises, and a name that no row of Pages has,
    letter for letter, gives None. *)
Theorem load_page_missing_name (config : Config) (name : string) (now : Z)
        (db : database) :
  (exists answer, returned (load_page config name now db) = inr answer) /\
  (~ In name (map page_name (Pages db)) ->
   returned (load_page config name now db) = inr None).
Proof.
  destruct (DB_USE_SAVED_PAGES config) eqn:E.
  - rewrite (load_page_enabled _ _ _ _ E). cbn [returned].
    split; [eauto|]. intros H. now rewrite filter_named_absent.
  - rewrite (load_page_disabled _ _ _ _ E). cbn [returned]. eauto.
Qed.

(** X15.  What [load_page] answers for a name is not changed by saving a
    page under another title, by saving a search, or by clearing the
    searches. *)
Theorem load_page_ignores_other_writes (config saving : Config)
        (page : WikiParserObject) (search name : string) (now now' : Z)
        (db : database) :
  page_title page <> name ->
  returned (load_page config name now' (store (save_page saving page now db))) =
    returned (load_page config name now' db) /\
  returned (load_page config name now'
              (store (save_search saving search now db))) =
    returned (load_page config name now' db) /\
  returned (load_page config name now' (store (clear_searches now db))) =
    returned (load_page config name now' db).
Proof.
  intros H. repeat split.
  - destruct (DB_SAVE_PAGES saving) eqn:S;
      [|now rewrite (save_page_disabled _ _ _ _ S)].
    destruct (DB_USE_SAVED_PAGES config) eqn:E;
      [|now rewrite !(load_page_disabled _ _ _ _ E)].
    rewrite !(load_page_enabled _ _ _ _ E), (save_page_enabled _ _ _ _ S).
    cbn [returned]. destruct (existsb _ _); cbn [store Pages].
    + now rewrite filter_named_refresh_other.
    + assert (N : named name
                    (fresh_page (Pages db) (page_title page) (page_text page)
                                now) = false)
        by (unfold named, fresh_page; cbn [page_name];
            now apply String.eqb_neq).
      rewrite filter_app. cbn [filter]. rewrite N. now rewrite app_nil_r.
  - apply load_page_depends_on_Pages, save_search_keeps_pages.
  - apply load_page_depends_on_Pages, (proj1 clear_keeps_pages).
Qed.

(** ** Creating the tables *)

(** X16.  [__create_tables] never raises; afterwards both tables are
    there, an existing table with the rows it had and a new one empty; and
    running it again changes nothing. *)
Theorem create_tables_keeps_rows (f : db_file) :
  fst (create_tables f) = inr tt /\
  tables_of (snd (create_tables f)) =
    Some (mkDb (match file_Pages f with Some rows => rows | None => [] end)
               (match file_Searches f with Some rows => rows | None => [] end)) /\
  create_tables (snd (create_tables f)) = (inr tt, snd (create_tables f)).
Proof.
  destruct f as [[pages|] [|] [searches|]]; repeat split.
Qed.

(** X17.  [__create_tables] creates the index on Pages (name) only
    together with the table: a new table gets it, a table that was there
    keeps or lacks it as before. *)
Theorem create_tables_index (f : db_file) :
  file_idx_name (snd (create_tables f)) =
  match file_Pages f with
  | None => true
  | Some _ => file_idx_name f
  end.
Proof.
  destruct f as [[pages|] [|] [searches|]]; reflexivity.
Qed.

(** ** Saving never raises *)

(** X24.  [save_page] and [save_search] always return: a title that is
    already stored makes the INSERT fail and the UPDATE run in its place,
    and nothing of that reaches the caller.  [save_page] runs the INSERT
    alone for a new title, the INSERT and then the UPDATE for a stored one,
    and no statement with DB_SAVE_PAGES off. *)
Theorem saving_never_raises (config : Config) (page : WikiParserObject)
        (search : string) (now : Z) (db : database) :
  returned (save_page config page now db) = inr tt /\
  returned (save_search config search now db) = inr tt /\
  executed (save_page config page now db) =
    (if DB_SAVE_PAGES config then
       if existsb (named (page_title page)) (Pages db)
       then [insert_page; update_page]
       else [insert_page]
     else []).
Proof.
  destruct (DB_SAVE_PAGES config) eqn:P, (DB_SAVE_SEARCHES config) eqn:S;
    rewrite ?(save_page_enabled _ _ _ _ P), ?(save_page_disabled _ _ _ _ P),
            ?(save_search_enabled _ _ _ _ S), ?(save_search_disabled _ _ _ _ S);
    try destruct (existsb _ _); repeat split.
Qed.

(** ** What the listing of pages shows *)

Lemma page_tuple_with_content (content : PageRow -> string) (r : PageRow) :
  page_tuple (with_content content r) = page_tuple r.
Proof. reflexivity. Qed.

Lemma sort_pages_with_content (content : PageRow -> string)
      (rows : list PageRow) :
  map page_tuple
      (sort_rows (pages_by_id ASC) (map (with_content content) rows)) =
  map page_tuple (sort_rows (pages_by_id ASC) rows).
Proof.
  rewrite sort_rows_map by (intros a b; reflexivity).
  rewrite map_map. apply map_ext. intros r. apply page_tuple_with_content.
Qed.

(** C10.  [get_saved_pages] never returns page content.  Every tuple of a
    list it returns is, without a limit, exactly the (id, name, datetime)
    of a row of Pages, and with a limit the (id, name) of one (no list
    comes back then); and what it returns, list or exception, is the same
    whatever the content column holds.  The content is what [load_page]
    reads: replacing it changes the text of the page that is loaded. *)
Theorem get_saved_pages_never_returns_content (limit : option Z) (now : Z)
        (db : database) :
  (forall l t,
     returned (get_saved_pages limit now db) = inr (Some l) ->
     In t l ->
     exists r,
       In r (Pages db) /\
       t = match limit with
           | None => [VInt (page_id r); VStr (page_name r);
                      VDatetime (page_datetime r)]
           | Some _ => [VInt (page_id r); VStr (page_name r)]
           end) /\
  (forall content,
     returned (get_saved_pages limit now
                 (mkDb (map (with_content content) (Pages db)) (Searches db))) =
     returned (get_saved_pages limit now db)) /\
  (forall config r content,
     DB_USE_SAVED_PAGES config = true ->
     seconds (age now (fromisoformat (page_datetime r))) <= threshold config ->
     returned (load_page config (page_name r) now
                 (mkDb [with_content content r] (Searches db))) =
     inr (Some (WikiParser (content r) (page_name r)))).
Proof.
  repeat split.
  - intros l t H Hin. destruct limit as [n|].
    + exfalso. destruct (Z_le_gt_dec n 0) as [Hn|Hn].
      * rewrite (proj1 (get_saved_limit_nonpositive n now db Hn)) in H.
        discriminate H.
      * rewrite get_saved_pages_limit in H by lia. discriminate H.
    + rewrite get_saved_pages_all in H. cbn [returned] in H.
      injection H as <-. apply in_map_iff in Hin as [r [<- Hr]].
      exists r. split; [|reflexivity].
      eapply Permutation_in; [apply Permutation_sym, sort_rows_perm|exact Hr].
  - intros content. destruct limit as [n|].
    + destruct (Z_le_gt_dec n 0) as [Hn|Hn].
      * now rewrite !(proj1 (get_saved_limit_nonpositive n now _ Hn)).
      * now rewrite !get_saved_pages_limit by lia.
    + rewrite !get_saved_pages_all. cbn [returned Pages].
      now rewrite sort_pages_with_content.
  - intros config r content Hu Hage.
    rewrite (load_page_enabled _ _ _ _ Hu). cbn [returned Pages filter].
    unfold named at 1. cbn [with_content page_name].
    rewrite String.eqb_refl.
    cbn [with_content page_datetime page_content page_name].
    destruct (seconds _ >? threshold config) eqn:G; [lia|reflexivity].
Qed.

End Database.

(** ** Staleness after a day *)

(** C3.  With the threshold at 7200 s, a row stored at second 1 is 86400 s
    old at second 86401, yet [page_needs_update] answers False and
    [load_page] still serves the page: the test reads the [seconds] field of
    the age, which leaves the days out. *)
Theorem page_needs_update_ignores_days :
  threshold two_hours sample_config = 7200 /\
  total_seconds (age 86401000000 (fromisoformat 1)) = 86400 /\
  returned (page_needs_update two_hours sample_config (fromisoformat 1)
                              86401000000 store_A) = inr false /\
  returned (load_page two_hours sample_config "A" 86401000000 store_A) =
    inr (Some page_A).
Proof. repeat split; reflexivity. Qed.

(** ** Instances *)

Lemma save_page_upsert_witness :
  unique_names store_A /\
  DB_SAVE_PAGES sample_config = true /\
  List.length
    (filter (named (page_title page_A'))
            (Pages (store (save_page sample_config page_A' 9000000 store_A))))
  = 1%nat /\
  In (mkPage 1 (page_title page_A') (page_text page_A') (9000000 / 1000000))
     (Pages (store (save_page sample_config page_A' 9000000 store_A))).
Proof.
  assert (U : unique_names store_A).
  { unfold unique_names. vm_compute.
    apply NoDup_cons; [intros []|apply NoDup_nil]. }
  assert (E : DB_SAVE_PAGES sample_config = true) by reflexivity.
  destruct (save_page_upsert two_hours sample_config page_A' 9000000 store_A
              U E) as [_ [_ [One [Kept _]]]].
  refine (conj U (conj E (conj One _))).
  apply (Kept (mkPage 1 "A" "text of A" 1)).
  - vm_compute. left. reflexivity.
  - reflexivity.
Defined.

(** C6, as it was stated, fails on a store that holds the title already:
    with DB_SAVE_PAGES off and DB_USE_SAVED_PAGES on, [save_page] of a new
    text for A does nothing to [store_A], and [load_page] of A afterwards
    returns the page stored before, not None. *)
Lemma toggle_gating_counterexample :
  ~ (forall (config : Config) (page : WikiParserObject) (now now' : Z)
            (db : database),
       DB_SAVE_PAGES config = false ->
       DB_USE_SAVED_PAGES config = true ->
       returned (load_page two_hours config (page_title page) now'
                   (store (save_page config page now db))) = inr None).
Proof.
  intros H.
  specialize (H (mkConfig true false true "2h") page_A' 2000000 3000000
                store_A eq_refl eq_refl).
  vm_compute in H. discriminate H.
Qed.

Lemma nonpositive_limit_raises_ValueError_witness :
  -1 <= 0 /\
  get_saved_pages (Some (-1)) 0 store_ABC =
    mkOutcome (inl ValueError) store_ABC [] /\
  get_saved_searches (Some (-1)) 0 store_ABC =
    mkOutcome (inl ValueError) store_ABC [].
Proof.
  assert (H : -1 <= 0) by lia.
  destruct (nonpositive_limit_raises_ValueError (-1) 0 store_ABC H)
    as [P [S _]].
  exact (conj H (conj P S)).
Defined.

Lemma toggle_gating_witness :
  (let config := mkConfig true false true "2h" in
   DB_SAVE_PAGES config = false /\
   DB_USE_SAVED_PAGES config = true /\
   ~ In (page_title page_B) (map page_name (Pages store_A)) /\
   returned (load_page two_hours config (page_title page_B) 3000000
               (store (save_page config page_B 2000000 store_A))) = inr None) /\
  (let config := mkConfig true true false "2h" in
   DB_USE_SAVED_PAGES config = false /\
   DB_SAVE_PAGES sample_config = true /\
   load_page two_hours config (page_title page_A) 3000000
             (store (save_page sample_config page_A 1000000 empty_db)) =
     mkOutcome (inr None)
               (store (save_page sample_config page_A 1000000 empty_db)) []).
Proof.
  split.
  - intros config.
    assert (Hs : DB_SAVE_PAGES config = false) by reflexivity.
    assert (Hu : DB_USE_SAVED_PAGES config = true) by reflexivity.
    assert (Hn : ~ In (page_title page_B) (map page_name (Pages store_A))).
    { vm_compute. intros [H|[]]. discriminate H. }
    destruct (toggle_gating two_hours config page_B 2000000 3000000 store_A)
      as [Off _].
    destruct (Off Hs) as [_ [_ Found]].
    exact (conj Hs (conj Hu (conj Hn (Found Hu Hn)))).
  - intros config.
    assert (Hu : DB_USE_SAVED_PAGES config = false) by reflexivity.
    assert (Hs : DB_SAVE_PAGES sample_config = true) by reflexivity.
    destruct (toggle_gating two_hours config page_A 1000000 3000000 empty_db)
      as [_ Off].
    destruct (Off Hu) as [_ Saved].
    destruct (Saved sample_config Hs) as [_ Found].
    exact (conj Hu (conj Hs Found)).
Defined.

Lemma save_then_load_round_trip_witness :
  DB_SAVE_PAGES sample_config = true /\
  DB_USE_SAVED_PAGES sample_config = true /\
  1000000 <= 7201999999 /\
  total_seconds (age 7201999999 (fromisoformat (1000000 / 1000000))) <=
    threshold two_hours sample_config /\
  returned (load_page two_hours sample_config (page_title page_A) 7201999999
              (store (save_page sample_config page_A 1000000 empty_db))) =
    inr (Some page_A).
Proof.
  assert (Hs : DB_SAVE_PAGES sample_config = true) by reflexivity.
  assert (Hu : DB_USE_SAVED_PAGES sample_config = true) by reflexivity.
  assert (Hle : 1000000 <= 7201999999) by lia.
  assert (Hw : total_seconds
                 (age 7201999999 (fromisoformat (1000000 / 1000000)))
               <= threshold two_hours sample_config)
    by (vm_compute; discriminate).
  exact (conj Hs (conj Hu (conj Hle (conj Hw
           (save_then_load_round_trip two_hours sample_config page_A
              1000000 7201999999 empty_db Hs Hu Hle Hw))))).
Defined.

(** ** The command line *)

Lemma str_in_In (x : string) (l : list string) : str_in x l = true <-> In x l.
Proof.
  unfold str_in. rewrite existsb_exists. split.
  - intros [y [Hy E]]. apply String.eqb_eq in E. now subst y.
  - intros H. exists x. split; [exact H|apply String.eqb_refl].
Qed.

Lemma str_in_not_In (x : string) (l : list string) :
  str_in x l = false <-> ~ In x l.
Proof.
  rewrite <- str_in_In. now destruct (str_in x l).
Qed.

Lemma options_of_In (opt : string) (argv : list string) :
  In opt (options_of argv) <-> In opt argv /\ startswith opt "-" = true.
Proof.
  unfold options_of. apply (filter_In (fun o => startswith o "-")).
Qed.

Lemma In_tl {A : Type} (x : A) (l : list A) : In x (tl l) -> In x l.
Proof. destruct l; [intros []|now right]. Qed.

Lemma positional_args_dashless (argv : list string) :
  positional_args_of argv =
  filter (fun arg => negb (startswith arg "-")) (tl argv).
Proof.
  unfold positional_args_of. apply filter_ext_in. intros a Ha. f_equal.
  destruct (startswith a "-") eqn:E.
  - apply str_in_In, options_of_In. split; [now apply In_tl|exact E].
  - apply str_in_not_In. intros H. apply options_of_In in H. destruct H.
    congruence.
Qed.

Lemma flag_in_options (flag : string) (argv : list string) :
  startswith flag "-" = true ->
  str_in flag (options_of argv) = true <-> In flag argv.
Proof.
  intros H. rewrite str_in_In, options_of_In. tauto.
Qed.

Lemma no_invalid_opts (argv : list string) :
  invalid_opts_of argv = [] ->
  (0 <? List.length (invalid_opts_of argv))%nat = false.
Proof. intros H. now rewrite H. Qed.

(** X18.  The positional arguments of [main] are the words after the
    program name that do not start with a dash, in their order; the
    options are the words of the whole command line that do. *)
Theorem positional_args_have_no_dash (argv : list string) :
  positional_args_of argv =
    filter (fun arg => negb (startswith arg "-")) (tl argv) /\
  (forall arg, In arg (positional_args_of argv) ->
               startswith arg "-" = false /\ In arg (tl argv)) /\
  (forall opt, In opt (options_of argv) <->
               In opt argv /\ startswith opt "-" = true).
Proof.
  split; [apply positional_args_dashless|]. split.
  - intros arg H. rewrite positional_args_dashless in H.
    apply filter_In in H as [Hin Hd]. split; [|exact Hin].
    now destruct (startswith arg "-").
  - intros opt. apply options_of_In.
Qed.

(** X19.  A word of the command line that starts with a dash and is not
    one of -r, --raw, -h, --help makes [main] raise TypeError, before any
    help is printed and before any service is called. *)
Theorem main_invalid_option (argv : list string) (opt : string) :
  In opt argv ->
  startswith opt "-" = true ->
  ~ In opt valid_options ->
  main argv = ([], Raise_TypeError).
Proof.
  intros Hin Hd Hv. unfold main.
  assert (I : In opt (invalid_opts_of argv)).
  { unfold invalid_opts_of. apply filter_In. split.
    - now apply options_of_In.
    - apply str_in_not_In in Hv. now rewrite Hv. }
  destruct (invalid_opts_of argv) as [|o rest]; [destruct I|reflexivity].
Qed.

(** X20.  With no invalid option and fewer than three positional
    arguments, [main] prints the help and exits with status 1, with or
    without -h. *)
Theorem main_too_few_arguments (argv : list string) :
  invalid_opts_of argv = [] ->
  (List.length (positional_args_of argv) < 3)%nat ->
  main argv = ([print_help_msg], SystemExit 1).
Proof.
  intros Hv Hl. unfold main. rewrite (no_invalid_opts _ Hv).
  apply Nat.ltb_lt in Hl. now rewrite Hl.
Qed.

(** X21.  [main] prints the help and returns 0 exactly when no option is
    invalid, there are at least three positional arguments, and -h or
    --help is on the command line; and it never fails on
    [positional_args[0]]. *)
Theorem main_help (argv : list string) :
  (main argv = ([print_help_msg], Return 0) <->
   invalid_opts_of argv = [] /\
   (3 <= List.length (positional_args_of argv))%nat /\
   (In "-h" argv \/ In "--help" argv)) /\
  snd (main argv) <> Raise_IndexError.
Proof.
  assert (Hh : str_in "-h" (options_of argv)
               || str_in "--help" (options_of argv) = true <->
               In "-h" argv \/ In "--help" argv).
  { rewrite orb_true_iff, !flag_in_options by reflexivity. tauto. }
  unfold main. cbv zeta.
  destruct (0 <? List.length (invalid_opts_of argv))%nat eqn:V.
  { split; [|intros X; cbn in X; discriminate X].
    split; [discriminate|]. intros [H _]. rewrite H in V. discriminate. }
  assert (I : invalid_opts_of argv = []).
  { apply Nat.ltb_ge in V. destruct (invalid_opts_of argv); [reflexivity|].
    cbn [List.length] in V. lia. }
  destruct (List.length (positional_args_of argv) <? 3)%nat eqn:L.
  { split; [|intros X; cbn in X; discriminate X]. split; [discriminate|].
    intros [_ [H _]]. apply Nat.ltb_lt in L. lia. }
  apply Nat.ltb_ge in L.
  destruct (str_in "-h" (options_of argv) || str_in "--help" (options_of argv))
    eqn:Hf.
  { split; [|intros X; cbn in X; discriminate X]. split; [|reflexivity].
    intros _. split; [exact I|]. split; [exact L|]. now apply Hh. }
  assert (Hn : ~ (In "-h" argv \/ In "--help" argv)).
  { intros H. apply Hh in H. discriminate. }
  destruct (positional_args_of argv) as [|mode rest];
    [cbn [List.length] in L; lia|].
  destruct (str_in mode dict_mode_names);
    [split; [split; [discriminate|tauto]|intros X; cbn in X; discriminate X]|].
  destruct (str_in mode translate_mode_names);
    [split; [split; [discriminate|tauto]|intros X; cbn in X; discriminate X]|].
  destruct (str_in mode wiki_mode_names);
    (split; [split; [discriminate|tauto]|intros X; cbn in X; discriminate X]).
Qed.

Lemma main_dispatches (argv : list string) (mode : string)
      (rest : list string) :
  invalid_opts_of argv = [] ->
  positional_args_of argv = mode :: rest ->
  (2 <= List.length rest)%nat ->
  ~ In "-h" argv -> ~ In "--help" argv ->
  main argv =
  if str_in mode dict_mode_names then
    ([], Return_service
           (get_dictionary_entry
              rest
              (if str_in "-r" (options_of argv)
                  || str_in "--raw" (options_of argv)
               then false else true)))
  else if str_in mode translate_mode_names then
    ([], Return_service (translate_word rest))
  else if str_in mode wiki_mode_names then
    ([], Return_service (get_wiki_page rest))
  else ([print_help_msg], Return 1).
Proof.
  intros Hv Hp Hl Hh Hhelp. unfold main.
  rewrite (no_invalid_opts _ Hv), Hp.
  assert (L : (List.length (mode :: rest) <? 3)%nat = false)
    by (apply Nat.ltb_ge; cbn [List.length]; lia).
  rewrite L.
  assert (H1 : str_in "-h" (options_of argv) = false).
  { apply not_true_is_false. intros H. now apply flag_in_options in H. }
  assert (H2 : str_in "--help" (options_of argv) = false).
  { apply not_true_is_false. intros H. now apply flag_in_options in H. }
  rewrite H1, H2. reflexivity.
Qed.

(** X22.  With no invalid option, no -h or --help, and a mode followed by
    at least two more positional arguments, [main] hands those arguments
    to the service of the mode: d, dict, dictionary to
    [get_dictionary_entry], formatting on unless -r or --raw is given;
    t, tr, translate to [translate_word]; w, wiki, wikipedia to
    [get_wiki_page]; any other mode prints the help and returns 1. *)
Theorem main_dispatch (argv : list string) (mode : string)
        (rest : list string) :
  invalid_opts_of argv = [] ->
  positional_args_of argv = mode :: rest ->
  (2 <= List.length rest)%nat ->
  ~ In "-h" argv -> ~ In "--help" argv ->
  (In mode dict_mode_names ->
   main argv =
   ([], Return_service
          (get_dictionary_entry
             rest (negb (str_in "-r" argv || str_in "--raw" argv))))) /\
  (In mode translate_mode_names ->
   main argv = ([], Return_service (translate_word rest))) /\
  (In mode wiki_mode_names ->
   main argv = ([], Return_service (get_wiki_page rest))) /\
  (~ In mode (dict_mode_names ++ translate_mode_names ++ wiki_mode_names) ->
   main argv = ([print_help_msg], Return 1)).
Proof.
  intros Hv Hp Hl Hh Hhelp.
  rewrite (main_dispatches argv mode rest Hv Hp Hl Hh Hhelp).
  assert (R : (if str_in "-r" (options_of argv)
                  || str_in "--raw" (options_of argv)
               then false else true) =
              negb (str_in "-r" argv || str_in "--raw" argv)).
  { assert (E : forall flag, startswith flag "-" = true ->
                  str_in flag (options_of argv) = str_in flag argv).
    { intros flag Hd. apply eq_true_iff_eq.
      rewrite (flag_in_options flag argv Hd). symmetry. apply str_in_In. }
    rewrite !E by reflexivity.
    now destruct (str_in "-r" argv || str_in "--raw" argv). }
  rewrite R. repeat split.
  - intros H. apply str_in_In in H. now rewrite H.
  - intros H. cbn in H.
    destruct H as [H|[H|[H|[]]]]; subst mode; reflexivity.
  - intros H. cbn in H.
    destruct H as [H|[H|[H|[]]]]; subst mode; reflexivity.
  - intros H. rewrite !in_app_iff in H.
    assert (D : str_in mode dict_mode_names = false)
      by (apply str_in_not_In; tauto).
    assert (T : str_in mode translate_mode_names = false)
      by (apply str_in_not_In; tauto).
    assert (W : str_in mode wiki_mode_names = false)
      by (apply str_in_not_In; tauto).
    now rewrite D, T, W.
Qed.

(** X23.  When [main] hands over to a service it has printed nothing, no
    option was invalid, neither -h nor --help was given, and the service
    gets at least two arguments, each a word of the command line that does
    not start with a dash. *)
Theorem main_service_arguments (argv : list string) (events : list cli_event)
        (call : service_call) :
  main argv = (events, Return_service call) ->
  events = [] /\
  invalid_opts_of argv = [] /\
  ~ In "-h" argv /\ ~ In "--help" argv /\
  (2 <= List.length (service_args call))%nat /\
  (exists mode, positional_args_of argv = mode :: service_args call) /\
  (forall arg, In arg (service_args call) ->
               startswith arg "-" = false /\ In arg argv).
Proof.
  intros H.
  assert (Hh : str_in "-h" (options_of argv)
               || str_in "--help" (options_of argv) = true <->
               In "-h" argv \/ In "--help" argv).
  { rewrite orb_true_iff, !flag_in_options by reflexivity. tauto. }
  assert (Hpos : forall arg, In arg (positional_args_of argv) ->
                   startswith arg "-" = false /\ In arg argv).
  { intros arg Ha. rewrite positional_args_dashless in Ha.
    apply filter_In in Ha as [Hin Hd]. split; [|now apply In_tl].
    now destruct (startswith arg "-"). }
  unfold main in H. cbv zeta in H.
  destruct (0 <? List.length (invalid_opts_of argv))%nat eqn:V;
    [discriminate|].
  assert (I : invalid_opts_of argv = []).
  { apply Nat.ltb_ge in V. destruct (invalid_opts_of argv); [reflexivity|].
    cbn [List.length] in V. lia. }
  destruct (List.length (positional_args_of argv) <? 3)%nat eqn:L;
    [discriminate|].
  apply Nat.ltb_ge in L.
  destruct (str_in "-h" (options_of argv) || str_in "--help" (options_of argv))
    eqn:Hf; [discriminate|].
  assert (Hn : ~ (In "-h" argv \/ In "--help" argv)).
  { intros X. apply Hh in X. discriminate. }
  destruct (positional_args_of argv) as [|mode rest] eqn:P; [discriminate|].
  cbn [List.length] in L.
  assert (G : events = [] /\ service_args call = rest).
  { destruct (str_in mode dict_mode_names);
      [injection H as <- <-; now split|].
    destruct (str_in mode translate_mode_names);
      [injection H as <- <-; now split|].
    destruct (str_in mode wiki_mode_names);
      [injection H as <- <-; now split|discriminate]. }
  destruct G as [G1 G2]. rewrite G2.
  repeat split; try tauto; try lia.
  - now exists mode.
  - apply Hpos. now right.
  - apply Hpos. now right.
Qed.

Lemma get_saved_pages_never_returns_content_witness :
  returned (get_saved_pages None 0 store_A) =
    inr (Some [[VInt 1; VStr "A"; VDatetime 1]]) /\
  In [VInt 1; VStr "A"; VDatetime 1] [[VInt 1; VStr "A"; VDatetime 1]] /\
  exists r,
    In r (Pages store_A) /\
    [VInt 1; VStr "A"; VDatetime 1] =
    [VInt (page_id r); VStr (page_name r); VDatetime (page_datetime r)].
Proof.
  assert (H : returned (get_saved_pages None 0 store_A) =
              inr (Some [[VInt 1; VStr "A"; VDatetime 1]])) by reflexivity.
  assert (I : In [VInt 1; VStr "A"; VDatetime 1]
                 [[VInt 1; VStr "A"; VDatetime 1]]) by (left; reflexivity).
  destruct (get_saved_pages_never_returns_content two_hours None 0 store_A)
    as [Shape _].
  exact (conj H (conj I (Shape _ _ H I))).
Defined.

(** ** Instances of the further properties *)

Ltac in_list := cbn; repeat (first [left; reflexivity | right]).

Ltac not_in_list :=
  let H := fresh "H" in
  intros H; cbn in H;
  repeat (destruct H as [H|H]; [discriminate H|]); destruct H.

Lemma primary_keys_stay_unique_witness :
  unique_ids store_A /\
  unique_ids (store_after two_hours sample_config (Call_save_page page_B)
                          2000000 store_A).
Proof.
  assert (U : unique_ids store_A).
  { split; vm_compute.
    - apply NoDup_cons; [intros []|apply NoDup_nil].
    - apply NoDup_nil. }
  exact (conj U (primary_keys_stay_unique two_hours sample_config
                   (Call_save_page page_B) 2000000 store_A U)).
Defined.

Lemma save_search_appends_witness :
  DB_SAVE_SEARCHES sample_config = true /\
  searches_below_top store_A_query /\
  exists id,
    Searches (store (save_search sample_config "again" 3000000
                                 store_A_query)) =
      Searches store_A_query ++ [mkSearch id "again" (3000000 / 1000000)] /\
    (forall r, In r (Searches store_A_query) -> search_id r < id) /\
    id <= top_rowid.
Proof.
  assert (E : DB_SAVE_SEARCHES sample_config = true) by reflexivity.
  assert (B : searches_below_top store_A_query).
  { intros r H. vm_compute in H. destruct H as [H|[]]. subst r.
    vm_compute. reflexivity. }
  destruct (save_search_appends sample_config "again" 3000000 store_A_query)
    as [_ On].
  destruct (On E B) as [id [S [F [T _]]]].
  refine (conj E (conj B (ex_intro _ id (conj _ (conj F T))))).
  rewrite S. reflexivity.
Defined.

Lemma save_search_then_list_witness :
  DB_SAVE_SEARCHES sample_config = true /\
  searches_below_top store_A_query /\
  exists id l,
    id <= top_rowid /\
    returned (get_saved_searches None 3000000 store_A_query) = inr (Some l) /\
    returned (get_saved_searches None 3000000
                (store (save_search sample_config "again" 3000000
                                    store_A_query))) =
      inr (Some (l ++ [[VInt id; VStr "again"; VDatetime (3000000 / 1000000)]])) /\
    returned (get_saved_searches (Some 1) 3000000
                (store (save_search sample_config "again" 3000000
                                    store_A_query))) =
      inr (Some [[VInt id; VStr "again"; VDatetime (3000000 / 1000000)]]).
Proof.
  assert (E : DB_SAVE_SEARCHES sample_config = true) by reflexivity.
  assert (B : searches_below_top store_A_query).
  { intros r H. vm_compute in H. destruct H as [H|[]]. subst r.
    vm_compute. reflexivity. }
  exact (conj E (conj B (save_search_then_list sample_config "again"
                           3000000 3000000 store_A_query E B))).
Defined.

Lemma get_saved_searches_newest_first_witness :
  0 < 2 < 2 ^ 63 /\
  exists l,
    Permutation l (map search_tuple (Searches store_A_query)) /\
    descending_by_id l /\
    returned (get_saved_searches (Some 2) 0 store_A_query) =
      inr (Some (firstn (Z.to_nat 2) l)) /\
    List.length (firstn (Z.to_nat 2) l) =
      Nat.min (Z.to_nat 2) (List.length (Searches store_A_query)) /\
    store (get_saved_searches (Some 2) 0 store_A_query) = store_A_query.
Proof.
  assert (H : 0 < 2 < 2 ^ 63) by (split; reflexivity).
  exact (conj H (get_saved_searches_newest_first 2 0 store_A_query H)).
Defined.

Lemma get_saved_searches_huge_limit_witness :
  2 ^ 63 <= 2 ^ 63 /\
  returned (get_saved_searches (Some (2 ^ 63)) 0 store_A_query) =
    inl OverflowError /\
  store (get_saved_searches (Some (2 ^ 63)) 0 store_A_query) = store_A_query.
Proof.
  assert (H : 2 ^ 63 <= 2 ^ 63) by (vm_compute; discriminate).
  exact (conj H (get_saved_searches_huge_limit (2 ^ 63) 0 store_A_query H)).
Defined.

Lemma get_saved_pages_positive_limit_witness :
  0 < 1 /\
  returned (get_saved_pages (Some 1) 0 store_ABC) = inl OperationalError /\
  store (get_saved_pages (Some 1) 0 store_ABC) = store_ABC /\
  executed (get_saved_pages (Some 1) 0 store_ABC) = [select_pages_limit].
Proof.
  assert (H : 0 < 1) by reflexivity.
  exact (conj H (get_saved_pages_positive_limit 1 0 store_ABC H)).
Defined.

Lemma save_page_touches_one_row_witness :
  DB_SAVE_PAGES sample_config = true /\
  Searches (store (save_page sample_config page_B 3000000 store_A_query)) =
    Searches store_A_query /\
  List.length
    (Pages (store (save_page sample_config page_B 3000000 store_A_query))) =
    (List.length (Pages store_A_query) +
     if existsb (named (page_title page_B)) (Pages store_A_query)
     then 0 else 1)%nat.
Proof.
  assert (E : DB_SAVE_PAGES sample_config = true) by reflexivity.
  destruct (save_page_touches_one_row sample_config page_B 3000000
              store_A_query E) as [S [_ [_ L]]].
  exact (conj E (conj S L)).
Defined.

Lemma save_page_then_list_witness :
  DB_SAVE_PAGES sample_config = true /\
  pages_below_top store_ABC /\
  exists rows id,
    id <= top_rowid /\
    Permutation rows (Pages store_ABC) /\
    returned (get_saved_pages None 0 store_ABC) =
      inr (Some (map page_tuple rows)) /\
    returned (get_saved_pages None 0
                (store (save_page sample_config (WikiParser "text of D" "D") 9000000 store_ABC))) =
      inr (Some
             (if existsb (named (page_title (WikiParser "text of D" "D"))) (Pages store_ABC)
              then map page_tuple
                       (map (refresh (page_title (WikiParser "text of D" "D")) (page_text (WikiParser "text of D" "D"))
                                     (9000000 / 1000000)) rows)
              else map page_tuple rows ++
                   [[VInt id; VStr (page_title (WikiParser "text of D" "D"));
                     VDatetime (9000000 / 1000000)]])).
Proof.
  assert (E : DB_SAVE_PAGES sample_config = true) by reflexivity.
  assert (B : pages_below_top store_ABC).
  { intros r H. vm_compute in H.
    repeat (destruct H as [H|H]; [subst r; vm_compute; reflexivity|]).
    destruct H. }
  exact (conj E (conj B (save_page_then_list sample_config (WikiParser "text of D" "D") 9000000 0
                           store_ABC E B))).
Defined.

Lemma page_needs_update_first_day_witness :
  0 <= 7202000000 - fromisoformat 1 < 86400000000 /\
  page_needs_update two_hours sample_config (fromisoformat 1) 7202000000
                    store_A =
    mkOutcome
      (inr (total_seconds (age 7202000000 (fromisoformat 1))
            >? threshold two_hours sample_config))
      store_A [] /\
  total_seconds (age 7202000000 (fromisoformat 1)) =
    (7202000000 - fromisoformat 1) / 1000000.
Proof.
  assert (H : 0 <= 7202000000 - fromisoformat 1 < 86400000000)
    by (unfold fromisoformat; lia).
  exact (conj H (page_needs_update_first_day two_hours sample_config
                   (fromisoformat 1) 7202000000 store_A H)).
Defined.

Lemma load_page_returns_stored_witness :
  returned (load_page two_hours sample_config "A" 5000000 store_A) =
    inr (Some page_A) /\
  DB_USE_SAVED_PAGES sample_config = true /\
  page_title page_A = "A".
Proof.
  assert (H : returned (load_page two_hours sample_config "A" 5000000 store_A)
              = inr (Some page_A)) by (vm_compute; reflexivity).
  destruct (load_page_returns_stored two_hours sample_config "A" 5000000
              store_A page_A H) as [U [T _]].
  exact (conj H (conj U T)).
Defined.

Lemma load_page_ignores_other_writes_witness :
  page_title page_B <> "A" /\
  returned (load_page two_hours sample_config "A" 5000000
              (store (save_page sample_config page_B 3000000 store_A))) =
    returned (load_page two_hours sample_config "A" 5000000 store_A).
Proof.
  assert (H : page_title page_B <> "A")
    by (intros X; vm_compute in X; discriminate X).
  destruct (load_page_ignores_other_writes two_hours sample_config
              sample_config page_B "query" "A" 3000000 5000000 store_A H)
    as [S _].
  exact (conj H S).
Defined.

Lemma main_invalid_option_witness :
  In "-x" ["cli.py"; "d"; "en"; "word"; "-x"] /\
  startswith "-x" "-" = true /\
  ~ In "-x" valid_options /\
  main ["cli.py"; "d"; "en"; "word"; "-x"] = ([], Raise_TypeError).
Proof.
  assert (H1 : In "-x" ["cli.py"; "d"; "en"; "word"; "-x"]) by in_list.
  assert (H2 : startswith "-x" "-" = true) by reflexivity.
  assert (H3 : ~ In "-x" valid_options) by not_in_list.
  exact (conj H1 (conj H2 (conj H3 (main_invalid_option _ _ H1 H2 H3)))).
Defined.

Lemma main_too_few_arguments_witness :
  invalid_opts_of ["cli.py"; "-h"] = [] /\
  (List.length (positional_args_of ["cli.py"; "-h"]) < 3)%nat /\
  main ["cli.py"; "-h"] = ([print_help_msg], SystemExit 1).
Proof.
  assert (H1 : invalid_opts_of ["cli.py"; "-h"] = []) by reflexivity.
  assert (H2 : (List.length (positional_args_of ["cli.py"; "-h"]) < 3)%nat)
    by (vm_compute; lia).
  exact (conj H1 (conj H2 (main_too_few_arguments _ H1 H2))).
Defined.

Lemma main_dispatch_witness :
  let argv := ["cli.py"; "dict"; "en"; "word"; "-r"] in
  invalid_opts_of argv = [] /\
  positional_args_of argv = "dict" :: ["en"; "word"] /\
  (2 <= List.length ["en"; "word"])%nat /\
  ~ In "-h" argv /\ ~ In "--help" argv /\
  In "dict" dict_mode_names /\
  main argv =
    ([], Return_service
           (get_dictionary_entry
              ["en"; "word"]
              (negb (str_in "-r" argv || str_in "--raw" argv)))).
Proof.
  intros argv.
  assert (H1 : invalid_opts_of argv = []) by reflexivity.
  assert (H2 : positional_args_of argv = "dict" :: ["en"; "word"])
    by reflexivity.
  assert (H3 : (2 <= List.length ["en"; "word"])%nat) by (cbn; lia).
  assert (H4 : ~ In "-h" argv) by not_in_list.
  assert (H5 : ~ In "--help" argv) by not_in_list.
  assert (H6 : In "dict" dict_mode_names) by in_list.
  destruct (main_dispatch argv "dict" ["en"; "word"] H1 H2 H3 H4 H5)
    as [D _].
  exact (conj H1 (conj H2 (conj H3 (conj H4 (conj H5 (conj H6 (D H6))))))).
Defined.

Lemma main_service_arguments_witness :
  let argv := ["cli.py"; "t"; "en"; "fi"; "word"] in
  main argv = ([], Return_service (translate_word ["en"; "fi"; "word"])) /\
  (2 <= List.length ["en"; "fi"; "word"])%nat /\
  ~ In "-h" argv.
Proof.
  intros argv.
  assert (H : main argv =
              ([], Return_service (translate_word ["en"; "fi"; "word"])))
    by reflexivity.
  destruct (main_service_arguments argv [] _ H) as [_ [_ [Hh [_ [L _]]]]].
  exact (conj H (conj L Hh)).
Defined.
